(** * Stock price analysis app: indicator pipeline and signal advisor

    A shallow embedding of [stock_price.py]: the symbol catalog with its
    fallback, the date-range guard in front of the price fetch, the moving
    averages and the RSI derived from the [Close] column, and the two
    recommendation rules.

    Numbers.  The script computes on pandas [float64] columns.  The
    frames of the embedding keep the special values that decide the
    program's behaviour (not-a-number and the two infinities, with the
    IEEE rules for arithmetic and comparison on them) and take the finite
    values to be exact rationals: rounding, overflow and the sign of zero
    are not represented there.  What is stated on these columns is what
    does not depend on them: which columns exist and where they are
    defined, the order of given numbers, the events of a run.  The value
    of a moving average is another matter: module [Binary64] has the
    rolling mean on binary64 floats as pandas computes it, and the
    statements about values of the moving averages are made there.  The
    special values are checked against binary64 arithmetic on the formula
    of the RSI and on the comparisons of the advisor.

    Environment.  One run of the script is a function of what the two
    external sources answer and of what the user enters; what the script
    shows and the calls it makes are recorded as a list of events, and the
    data frames live in a store of objects, so that assigning a column is
    an update of the object that every holder of the reference sees.  The
    two cached functions are modelled on a call that reaches their body. *)

From Stdlib Require Import QArith Qabs Qcanon Ascii String.
From Stdlib Require Import Floats.PrimFloat Floats.SpecFloat Floats.FloatOps.
From Stdlib Require Import Floats.FloatAxioms.
From stdpp Require Import base option list gmap strings.

Local Open Scope string_scope.
Set Warnings "-inexact-float".

(** ** Numbers: rationals extended with [inf], [-inf] and [nan] *)

Module Num.

Local Open Scope Qc_scope.

Inductive num : Type :=
| Fin (q : Qc)
| PInf
| NInf
| NaN.

Definition of_Z (z : Z) : Qc := Q2Qc (inject_Z z).

Definition zero : num := Fin 0.
Definition one : num := Fin 1.
Definition hundred : num := Fin (of_Z 100).

Definition Qcltb (a b : Qc) : bool :=
  match a ?= b with Lt => true | _ => false end.

Definition Qceqb (a b : Qc) : bool :=
  match a ?= b with Eq => true | _ => false end.

Definition is_nan (x : num) : bool :=
  match x with NaN => true | _ => false end.

(** [x < y] on floats: false as soon as one side is [nan]. *)
Definition ltb (x y : num) : bool :=
  match x, y with
  | NaN, _ | _, NaN => false
  | Fin a, Fin b => Qcltb a b
  | NInf, Fin _ | NInf, PInf | Fin _, PInf => true
  | _, _ => false
  end.

(** [x > y] *)
Definition gtb (x y : num) : bool := ltb y x.

Definition is_fin (x : num) : bool :=
  match x with Fin _ => true | _ => false end.

(** Equality test; [nan] counts as equal to itself here (this is not
    the [==] of floats, it compares the representations). *)
Definition eqb (x y : num) : bool :=
  match x, y with
  | Fin a, Fin b => Qceqb a b
  | PInf, PInf | NInf, NInf | NaN, NaN => true
  | _, _ => false
  end.

(** Unary minus. *)
Definition neg (x : num) : num :=
  match x with
  | Fin q => Fin (- q)
  | PInf => NInf
  | NInf => PInf
  | NaN => NaN
  end.

Definition add (x y : num) : num :=
  match x, y with
  | NaN, _ | _, NaN => NaN
  | Fin a, Fin b => Fin (a + b)
  | PInf, NInf | NInf, PInf => NaN
  | PInf, _ | _, PInf => PInf
  | NInf, _ | _, NInf => NInf
  end.

Definition sub (x y : num) : num := add x (neg y).

(** Division as numpy does it on [float64]: a finite non-zero number over
    zero is an infinity, zero over zero is [nan], a finite number over an
    infinity is zero, an infinity over an infinity is [nan].  The sign of a
    zero divisor is not tracked, it is taken to be positive. *)
Definition div (x y : num) : num :=
  match x, y with
  | NaN, _ | _, NaN => NaN
  | Fin a, Fin b =>
      if Qceqb b 0 then
        if Qceqb a 0 then NaN else if Qcltb 0 a then PInf else NInf
      else Fin (a / b)
  | Fin _, PInf | Fin _, NInf => Fin 0
  | PInf, Fin b => if Qcltb b 0 then NInf else PInf
  | NInf, Fin b => if Qcltb b 0 then PInf else NInf
  | _, _ => NaN
  end.

(** The order of the extended reals as a relation; [nan] is related to
    nothing. *)
Inductive lt : num -> num -> Prop :=
| lt_fin a b : a < b -> lt (Fin a) (Fin b)
| lt_ninf_fin b : lt NInf (Fin b)
| lt_fin_pinf a : lt (Fin a) PInf
| lt_ninf_pinf : lt NInf PInf.

End Num.

Abbreviation num := Num.num.
Abbreviation Fin := Num.Fin.
Abbreviation PInf := Num.PInf.
Abbreviation NInf := Num.NInf.
Abbreviation NaN := Num.NaN.

(** ** pandas: the Series operations the script calls *)

Module Series.

Fixpoint eqb (a b : list num) : bool :=
  match a, b with
  | [], [] => true
  | x :: a', y :: b' => Num.eqb x y && eqb a' b'
  | _, _ => false
  end.

(** [s.diff()]: first element [nan], then the difference with the previous
    element. *)
Definition diff (s : list num) : list num :=
  match s with
  | [] => []
  | _ :: t => NaN :: zip_with Num.sub t s
  end.

(** [s > c] and [s < c], element by element. *)
Definition gt (s : list num) (c : num) : list bool := (fun x => Num.gtb x c) <$> s.
Definition lt (s : list num) (c : num) : list bool := (fun x => Num.ltb x c) <$> s.

(** [s.where(cond, other)]: keep the element where [cond] holds, put
    [other] elsewhere. *)
Definition where_ (s : list num) (cond : list bool) (other : num) : list num :=
  zip_with (fun x (c : bool) => if c then x else other) s cond.

(** [-s] *)
Definition neg (s : list num) : list num := Num.neg <$> s.

(** [a / b], element by element. *)
Definition div (a b : list num) : list num := zip_with Num.div a b.

(** [c + s], [c / s], [c - s] with a scalar on the left. *)
Definition radd (c : num) (s : list num) : list num := Num.add c <$> s.
Definition rdiv (c : num) (s : list num) : list num := Num.div c <$> s.
Definition rsub (c : num) (s : list num) : list num := Num.sub c <$> s.

(** [s.iloc[-1]]: the last element; [IndexError] on an empty series. *)
Definition iloc_last (s : list num) : option num := last s.

(** [s.max()] and [s.min()]: [nan] entries are skipped; [nan] when nothing
    is left. *)
Definition max2 (x y : num) : num :=
  if Num.is_nan x then y else if Num.is_nan y then x
  else if Num.ltb x y then y else x.
Definition min2 (x y : num) : num :=
  if Num.is_nan x then y else if Num.is_nan y then x
  else if Num.ltb y x then y else x.
Definition max (s : list num) : num := foldr max2 NaN s.
Definition min (s : list num) : num := foldr min2 NaN s.

(** *** [s.rolling(window).mean()]

    The fixed-window rolling mean keeps a running sum and a count of the
    observations in the window.  Entering the window adds a value, leaving
    it removes the value; [nan] and infinite entries are not observations.
    The result is [nan] until the count reaches [min_periods], which for a
    fixed window is the window size.  The sum is exact here; the loop with
    the [float64] sum, its compensation and its corrections is
    [Binary64.rolling_mean]. *)

Record roll_state : Type := RollState { nobs : nat; sum_x : Qc }.

Definition roll_init : roll_state := RollState 0 0%Qc.

Definition add_mean (v : num) (st : roll_state) : roll_state :=
  match v with
  | Fin q => RollState (S (nobs st)) (sum_x st + q)%Qc
  | _ => st
  end.

Definition remove_mean (v : num) (st : roll_state) : roll_state :=
  match v with
  | Fin q => RollState (pred (nobs st)) (sum_x st - q)%Qc
  | _ => st
  end.

Definition calc_mean (minp : nat) (st : roll_state) : num :=
  if (minp <=? nobs st)%nat && (0 <? nobs st)%nat
  then Fin (sum_x st / Num.of_Z (Z.of_nat (nobs st)))%Qc
  else NaN.

(** The loop over the bars: at bar [i] the value that left the window
    (index [i - window], when there is one) is removed, the value at [i] is
    added, and the mean of the state is written to the output. *)
Fixpoint roll_loop (window minp : nat) (values : list num)
    (i : nat) (rest : list num) (st : roll_state) : list num :=
  match rest with
  | [] => []
  | v :: rest' =>
      let st1 :=
        if (window <=? i)%nat then
          match values !! (i - window)%nat with
          | Some old => remove_mean old st
          | None => st
          end
        else st in
      let st2 := add_mean v st1 in
      calc_mean minp st2 :: roll_loop window minp values (S i) rest' st2
  end.

Definition rolling_mean (window : nat) (values : list num) : list num :=
  roll_loop window window values 0 values roll_init.

End Series.

(** ** Dates, frames and the object store *)

(** [datetime.date]: ordered as the triple (year, month, day). *)
Record date : Type := Date { year : nat; month : nat; day : nat }.

Definition date_ltb (a b : date) : bool :=
  (year a <? year b)%nat
  || ((year a =? year b)%nat
      && ((month a <? month b)%nat
          || ((month a =? month b)%nat && (day a <? day b)%nat))).

(** [a >= b] *)
Definition date_geb (a b : date) : bool := negb (date_ltb a b).

(** A pandas [DataFrame]: the date index and the named columns. *)
Record DataFrame : Type :=
  Frame { index : list date; columns : gmap string (list num) }.

(** [df.empty]: no row or no column. *)
Definition df_empty (df : DataFrame) : bool :=
  (length (index df) =? 0)%nat || bool_decide (columns df = ∅).

(** [df[name] = col]: the column is added to (or replaced in) the frame. *)
Definition df_setitem (name : string) (col : list num) (df : DataFrame) : DataFrame :=
  Frame (index df) (<[name := col]> (columns df)).

(** Frames are objects: a variable holds a reference into the store. *)
Abbreviation loc := nat.
Abbreviation store := (gmap nat DataFrame).

(** ** What the script shows and what it calls *)

Inductive event : Type :=
| StTitle (text : string)
| StWrite (text : string)
| StWriteNum (label : string) (value : num)
| StError (text : string)
| StSelectbox (label : string) (options : list string)
| StDateInput (label : string)
| StSpinner (text : string)
| StChart (title : string) (y : list string)
| StDataframe (rows : list (string * num))
| ReadHtml (url : string)
| TickerHistory (symbol : option string) (start_ end_ : date).

Inductive exn : Type :=
| KeyError (name : string)
| IndexError
| ValueError
| AttributeError.

(** Result of a call into an external service: a value, or an exception. *)
Inductive outcome (A : Type) : Type :=
| Returned (a : A)
| Failed.
Arguments Returned {A} a.
Arguments Failed {A}.

(** An HTML table as [read_html] returns it: named columns of optional
    strings (a missing cell is [None]). *)
Abbreviation table := (gmap string (list (option string))).

(** The environment of one run of the script: what the two external
    sources answer and what the user enters in the widgets. *)
Record world : Type := World {
  read_html : outcome (list table);
  history : option string -> date -> date -> outcome DataFrame;
  picked : nat;
  start_input : date;
  end_input : date
}.

(** ** The script monad: state (store and output) and exceptions *)

Record state : Type := State { frames : store; out : list event }.

Inductive result (A : Type) : Type :=
| Ok (a : A)
| Raise (e : exn).
Arguments Ok {A} a.
Arguments Raise {A} e.

Definition M (A : Type) : Type := state -> result A * state.

Definition ret {A} (a : A) : M A := fun st => (Ok a, st).

Definition bind {A B} (m : M A) (k : A -> M B) : M B :=
  fun st =>
    match m st with
    | (Ok a, st') => k a st'
    | (Raise e, st') => (Raise e, st')
    end.

Definition raise {A} (e : exn) : M A := fun st => (Raise e, st).

Notation "x <- m ;; k" := (bind m (fun x => k))
  (at level 100, m at next level, right associativity).
Notation "m ;; k" := (bind m (fun _ => k))
  (at level 100, right associativity).

Definition emit (e : event) : M unit :=
  fun st => (Ok tt, State (frames st) (out st ++ [e])).

Definition from_option {A} (e : exn) (o : option A) : M A :=
  match o with Some a => ret a | None => raise e end.

(** A new frame object. *)
Definition alloc (df : DataFrame) : M loc :=
  fun st =>
    let l := fresh (dom (frames st)) in
    (Ok l, State (<[l := df]> (frames st)) (out st)).

Definition read_frame (l : loc) : M DataFrame :=
  fun st =>
    match frames st !! l with
    | Some df => (Ok df, st)
    | None => (Raise AttributeError, st)
    end.

(** [data_df[name]] *)
Definition getitem (l : loc) (name : string) : M (list num) :=
  df <- read_frame l ;;
  from_option (KeyError name) (columns df !! name).

(** [data_df[name] = col]: updates the object at [l]. *)
Definition setitem (l : loc) (name : string) (col : list num) : M unit :=
  fun st =>
    match frames st !! l with
    | Some df => (Ok tt, State (<[l := df_setitem name col df]> (frames st)) (out st))
    | None => (Raise AttributeError, st)
    end.

(** [series.iloc[-1]] *)
Definition iloc_last (s : list num) : M num :=
  from_option IndexError (Series.iloc_last s).

(** A plotly chart of the columns [y] of the frame against its index. *)
Definition plot (l : loc) (y : list string) (title : string) : M unit :=
  df <- read_frame l ;;
  if forallb (fun c => bool_decide (is_Some (columns df !! c))) y
  then emit (StChart title y)
  else raise ValueError.

(** ** The script *)

Module App.

Definition nl : string := String "010"%char "".

Definition default_symbols : list string :=
  [ "HDFCBANK.NS"; "RELIANCE.NS"; "TCS.NS"; "INFY.NS"; "WIPRO.NS";
    "ICICIBANK.NS"; "SBIN.NS"; "HINDUNILVR.NS"; "HDFC.NS"; "BHARTIARTL.NS" ].

(** A column read from the page with at least one cell and no text in any
    cell is a [float64] column of [nan]: it stays one after [dropna], and
    adding a string to it raises [TypeError]. *)
Definition all_missing (col : list (option string)) : bool :=
  match col with
  | [] => false
  | _ => forallb (fun cell => negb (bool_decide (is_Some cell))) col
  end.

(** The body of the [try] in [get_nse_symbols]: third table of the page,
    its [Symbol] column without the missing cells, [.NS] appended.  Any
    exception (no answer, fewer than three tables, no such column, a
    column of missing cells only) gives [None]. *)
Definition nse_symbols_try (w : world) : option (list string) :=
  match read_html w with
  | Failed => None
  | Returned tables =>
      match tables !! 2%nat with
      | None => None
      | Some symbols =>
          match (symbols : table) !! "Symbol" with
          | None => None
          | Some col =>
              if all_missing col then None
              else Some ((fun s => s ++ ".NS") <$> omap id col)
          end
      end
  end.

(** [get_nse_symbols]: the symbols of the page, or on any exception an
    error message and the default list. *)
Definition get_nse_symbols (w : world) : M (list string) :=
  emit (ReadHtml "https://en.wikipedia.org/wiki/NIFTY_50") ;;
  match nse_symbols_try w with
  | Some symbols => ret symbols
  | None =>
      emit (StError "Failed to fetch stock symbols. Using default list.") ;;
      ret default_symbols
  end.

Definition show_symbol (symbol : option string) : string :=
  match symbol with Some s => s | None => "None" end.

(** [fetch_stock_data], on a call that is not answered from the cache of
    [st.cache_data]: the provider is asked for the history of the symbol;
    an exception becomes an error message and [None]. *)
Definition fetch_stock_data (w : world) (symbol : option string)
    (start_date end_date : date) : M (option loc) :=
  emit (TickerHistory symbol start_date end_date) ;;
  match history w symbol start_date end_date with
  | Returned data_df => l <- alloc data_df ;; ret (Some l)
  | Failed =>
      emit (StError ("Failed to fetch data for " ++ show_symbol symbol
                     ++ ". Please try again.")) ;;
      ret None
  end.

(** Lines 70 to 72: the three moving averages, assigned as new columns of
    [data_df]. *)
Definition moving_averages (data_df : loc) : M unit :=
  close <- getitem data_df "Close" ;;
  setitem data_df "SMA20" (Series.rolling_mean 20 close) ;;
  close <- getitem data_df "Close" ;;
  setitem data_df "SMA50" (Series.rolling_mean 50 close) ;;
  close <- getitem data_df "Close" ;;
  setitem data_df "SMA100" (Series.rolling_mean 100 close).

(** Lines 86 to 90, as a function of the [Close] column. *)
Definition rsi_gain (close : list num) : list num :=
  let delta := Series.diff close in
  Series.rolling_mean 14 (Series.where_ delta (Series.gt delta Num.zero) Num.zero).

Definition rsi_loss (close : list num) : list num :=
  let delta := Series.diff close in
  Series.rolling_mean 14
    (Series.neg (Series.where_ delta (Series.lt delta Num.zero) Num.zero)).

Definition rsi_of_rs (rs : list num) : list num :=
  Series.rsub Num.hundred (Series.rdiv Num.hundred (Series.radd Num.one rs)).

Definition rsi_series (close : list num) : list num :=
  let gain := rsi_gain close in
  let loss := rsi_loss close in
  let rs := Series.div gain loss in
  rsi_of_rs rs.

Definition relative_strength (data_df : loc) : M unit :=
  close <- getitem data_df "Close" ;;
  setitem data_df "RSI" (rsi_series close).

(** Lines 110 to 123. *)
Definition buy_message : string :=
  "Potential Buy signal based on moving averages (Close > SMA20 > SMA50)." ++ nl.
Definition sell_message : string :=
  "Potential Sell signal based on moving averages (Close < SMA20 < SMA50)." ++ nl.
Definition hold_message : string :=
  "Hold signal based on moving averages." ++ nl.
Definition oversold_message : string :=
  "RSI indicates the stock is oversold. Potential buy opportunity." ++ nl.
Definition overbought_message : string :=
  "RSI indicates the stock is overbought. Potential sell opportunity." ++ nl.
Definition neutral_message : string :=
  "RSI is neutral." ++ nl.

Definition thirty : num := Fin (Num.of_Z 30).
Definition seventy : num := Fin (Num.of_Z 70).

Definition recommend (close sma20 sma50 rsi : num) : string :=
  let recommendation := "" in
  let recommendation :=
    if Num.gtb close sma20 && Num.gtb sma20 sma50 then
      recommendation ++ buy_message
    else if Num.ltb close sma20 && Num.ltb sma20 sma50 then
      recommendation ++ sell_message
    else
      recommendation ++ hold_message in
  let recommendation :=
    if Num.ltb rsi thirty then
      recommendation ++ oversold_message
    else if Num.gtb rsi seventy then
      recommendation ++ overbought_message
    else
      recommendation ++ neutral_message in
  recommendation.

(** [selected_stock.split(sep='.')[0]] *)
Fixpoint split_head (s : string) : string :=
  match s with
  | EmptyString => EmptyString
  | String c rest =>
      if Ascii.eqb c "."%char then EmptyString else String c (split_head rest)
  end.

(** Lines 78 to 84: the candlestick figure indexes the four price columns
    of the frame itself, so a missing one raises [KeyError] with its name;
    the figure is then shown. *)
Definition candlestick (data_df : loc) : M unit :=
  _ <- getitem data_df "Open" ;;
  _ <- getitem data_df "High" ;;
  _ <- getitem data_df "Low" ;;
  _ <- getitem data_df "Close" ;;
  emit (StChart "" ["Open"; "High"; "Low"; "Close"]).

(** Lines 52 to 125: the branch taken for a non-empty frame. *)
Definition analyse (data_df : loc) (selected_stock : option string) : M unit :=
  close <- getitem data_df "Close" ;;
  latest_close <- iloc_last close ;;
  emit (StWriteNum "Latest Closing Price: " latest_close) ;;
  close <- getitem data_df "Close" ;;
  let highest_price := Series.max close in
  let lowest_price := Series.min close in
  emit (StWriteNum " Highest Price in selected range: " highest_price) ;;
  emit (StWriteNum " Lowest Price in selected range: " lowest_price) ;;
  plot data_df ["Close"] "Closing Price" ;;
  plot data_df ["Volume"] "Volume" ;;
  emit (StWrite "###### Moving Averages") ;;
  moving_averages data_df ;;
  plot data_df ["Close"; "SMA20"; "SMA50"; "SMA100"] "" ;;
  emit (StWrite "###### Candlestick chart") ;;
  candlestick data_df ;;
  relative_strength data_df ;;
  plot data_df ["RSI"] "Relative Strength Index" ;;
  emit (StWrite "Technical Indicators Summary") ;;
  rsi <- getitem data_df "RSI" ;; rsi_last <- iloc_last rsi ;;
  sma20 <- getitem data_df "SMA20" ;; sma20_last <- iloc_last sma20 ;;
  sma50 <- getitem data_df "SMA50" ;; sma50_last <- iloc_last sma50 ;;
  sma100 <- getitem data_df "SMA100" ;; sma100_last <- iloc_last sma100 ;;
  emit (StDataframe
          [ ("Latest Close", latest_close); ("Highest Price", highest_price);
            ("Lowest Price", lowest_price); ("RSI", rsi_last);
            ("SMA20", sma20_last); ("SMA50", sma50_last);
            ("SMA100", sma100_last) ]) ;;
  name <- from_option AttributeError selected_stock ;;
  emit (StWrite ("## Recommendations for " ++ split_head name)) ;;
  close <- getitem data_df "Close" ;; close_last <- iloc_last close ;;
  sma20 <- getitem data_df "SMA20" ;; sma20_last <- iloc_last sma20 ;;
  sma50 <- getitem data_df "SMA50" ;; sma50_last <- iloc_last sma50 ;;
  rsi <- getitem data_df "RSI" ;; rsi_last <- iloc_last rsi ;;
  emit (StWrite (recommend close_last sma20_last sma50_last rsi_last)).

Definition no_data_message : string :=
  "No data available for the selected stock and data range.".

Definition date_error_message : string :=
  "Error: End date must fall after start date.".

Definition intro_text : string :=
  nl ++ "This app fetches and displays advanced stock analysis including closing price, volume, moving averages, candlestick chart, and RSI of selected stocks from the NIFTY 50."
  ++ nl ++ "Recommendations are provided based on SMA and RSI indicators." ++ nl.

(** The whole script, top to bottom. *)
Definition main (w : world) : M unit :=
  emit (StTitle "Advanced Stock Price Analysis App") ;;
  emit (StWrite intro_text) ;;
  stock_symbols <- get_nse_symbols w ;;
  emit (StSelectbox "Select a stock symbol" stock_symbols) ;;
  let selected_stock := stock_symbols !! picked w in
  emit (StDateInput "Start date") ;;
  let start_date := start_input w in
  emit (StDateInput "End date") ;;
  let end_date := end_input w in
  if date_geb start_date end_date then
    emit (StError date_error_message)
  else
    emit (StSpinner "Fetching data...") ;;
    data_df <- fetch_stock_data w selected_stock start_date end_date ;;
    match data_df with
    | Some l =>
        df <- read_frame l ;;
        if negb (df_empty df) then analyse l selected_stock
        else emit (StError no_data_message)
    | None => emit (StError no_data_message)
    end.

Definition run (w : world) : result unit * state := main w (State ∅ []).

End App.

(** ** The vocabulary of the specification *)

Module Spec.

Local Open Scope Qc_scope.

(** A price series enters the pipeline as its close prices, one per bar,
    oldest first; [column] is the [Close] column holding them. *)
Definition column (closes : list Qc) : list num := Fin <$> closes.

Definition total (l : list Qc) : Qc := foldr Qcplus 0 l.

Definition mean (l : list Qc) : Qc :=
  total l / Num.of_Z (Z.of_nat (length l)).

(** The (at most [n]) entries just before position [i]. *)
Definition trailing {A} (n i : nat) (l : list A) : list A :=
  take (Nat.min n i) (drop (i - n) l).

(** The window of [n] bars that ends at bar [i]: bars [i-n+1] to [i]
    (fewer when the series starts later). *)
Definition window {A} (n i : nat) (l : list A) : list A :=
  trailing n (S i) l.

(** Change of the close at bar [j] (for [j >= 1]), and its gain and loss
    parts. *)
Definition change (closes : list Qc) (j : nat) : Qc :=
  match closes !! j, closes !! pred j with
  | Some c, Some p => c - p
  | _, _ => 0
  end.

Definition gain_of (c : Qc) : Qc := if Num.Qcltb 0 c then c else 0.
Definition loss_of (c : Qc) : Qc := if Num.Qcltb c 0 then - c else 0.

(** Gain and loss of every bar of a series; the first bar has no change
    and counts for 0 in both. *)
Definition bar_gains (closes : list Qc) : list Qc :=
  match closes with
  | [] => []
  | _ :: t => 0 :: zip_with (fun c p => gain_of (c - p)) t closes
  end.

Definition bar_losses (closes : list Qc) : list Qc :=
  match closes with
  | [] => []
  | _ :: t => 0 :: zip_with (fun c p => loss_of (c - p)) t closes
  end.

(** Mean gain and mean loss over the 14 changes that end at bar [i]
    (changes of bars [i-13] to [i]); meant for [i >= 14]. *)
Definition mean_gain (closes : list Qc) (i : nat) : Qc :=
  mean ((fun j => gain_of (change closes j)) <$> seq (i - 13) 14).

Definition mean_loss (closes : list Qc) (i : nat) : Qc :=
  mean ((fun j => loss_of (change closes j)) <$> seq (i - 13) 14).

(** What it is for a column [sma] to be the simple moving average of
    window [n] of the closes: at every bar [i >= n-1] the arithmetic mean
    of the closes of bars [i-n+1] to [i], and [nan] at every earlier bar. *)
Definition is_sma (n : nat) (closes : list Qc) (sma : list num) : Prop :=
  length sma = length closes /\
  forall i, (i < length closes)%nat ->
    ((n - 1 <= i)%nat ->
       sma !! i = Some (Fin (mean (take n (drop (S i - n) closes))))) /\
    ((i < n - 1)%nat -> sma !! i = Some NaN).

(** The observations of a window, as the rolling mean counts them: the
    finite entries and their total. *)
Fixpoint finite_count (l : list num) : nat :=
  match l with
  | [] => 0
  | Fin _ :: t => S (finite_count t)
  | _ :: t => finite_count t
  end.

Fixpoint finite_total (l : list num) : Qc :=
  match l with
  | [] => 0
  | Fin q :: t => q + finite_total t
  | _ :: t => finite_total t
  end.

Definition window_state (l : list num) : Series.roll_state :=
  Series.RollState (finite_count l) (finite_total l).

(** [100 - 100 / (1 + rs)] *)
Definition rsi_formula (rs : num) : num :=
  Num.sub Num.hundred (Num.div Num.hundred (Num.add Num.one rs)).

Definition strictly_increasing (closes : list Qc) : Prop :=
  forall j a b, closes !! j = Some a -> closes !! S j = Some b -> a < b.


(** The order of dates, as a relation. *)
Definition date_lt (a b : date) : Prop :=
  (year a < year b)%nat
  \/ (year a = year b
      /\ ((month a < month b)%nat
          \/ (month a = month b /\ (day a < day b)%nat))).

(** A computation only adds to what is shown: the output before it is a
    prefix of the output after it. *)
Definition appends {A} (m : M A) : Prop :=
  forall st, out st `prefix_of` out (snd (m st)).

(** The retrieval of the symbol catalog fails: the body of the [try] in
    [get_nse_symbols] raises (no answer from the source, fewer than three
    tables on the page, or no [Symbol] column in the third one). *)
Definition catalog_fails (w : world) : Prop := App.nse_symbols_try w = None.

(** The indicator computation of the script: lines 70 to 72, then lines
    86 to 90 (the charts drawn in between do not write to the frame). *)
Definition indicator_stage (data_df : loc) : M unit :=
  App.moving_averages data_df ;; App.relative_strength data_df.

Definition derived_columns : list string := ["SMA20"; "SMA50"; "SMA100"; "RSI"].

(** [text] mentions [word]. *)
Definition mentions (word text : string) : bool :=
  match String.index 0 word text with Some _ => true | None => false end.

(** Executable checks of monotonicity, for concrete series. *)
Fixpoint increasingb (l : list Qc) : bool :=
  match l with
  | a :: (b :: _) as t => Num.Qcltb a b && increasingb t
  | _ => true
  end.


(** A flat run of 15 bars ending at bar [i]: bars [i-14] to [i] have the
    same close. *)
Definition flat_run (closes : list Qc) (i : nat) : Prop :=
  (14 <= i)%nat /\ exists c, forall j, (i - 14 <= j <= i)%nat -> closes !! j = Some c.


End Spec.

(** ** The formula and the comparisons on binary64 floats

    Used to check the table of special values of [Num] against IEEE 754
    arithmetic, including a negative zero as divisor. *)

Module IEEE.

Local Open Scope float_scope.

(** [100 - (100 / (1 + gain / loss))] on floats. *)
Definition rsi (gain loss : float) : float := 100 - (100 / (1 + gain / loss)).

(** [rsi < 30] and [rsi > 70] on floats. *)
Definition below_30 (rsi : float) : bool := PrimFloat.ltb rsi 30.
Definition above_70 (rsi : float) : bool := PrimFloat.ltb 70 rsi.

End IEEE.

(** ** The rolling mean and the RSI on binary64 floats

    [Series.rolling_mean] above keeps an exact sum.  pandas keeps the
    window's sum in a [float64] with a compensated (Kahan) update for the
    value that enters and another for the value that leaves, counts the
    negative observations and the run of equal values that ends at the
    current bar, and corrects the quotient with them.  This module has
    that loop on binary64 floats, state field by state field, for the
    fixed windows of at least two bars that the script uses (the state is
    then set up once, at the first bar).  It decides what of the moving
    averages and of the RSI depends on rounding and what does not. *)

Module Binary64.

Local Open Scope float_scope.

(** [val == val]: the value is an observation. *)
Definition notnan (val : float) : bool := PrimFloat.eqb val val.

(** Infinite entries are replaced by [nan] before the loop runs. *)
Definition prep_values (values : list float) : list float :=
  (fun v => if is_infinity v then nan else v) <$> values.

Record roll_state : Type := RollState {
  nobs : nat;
  sum_x : float;
  neg_ct : nat;
  compensation_add : float;
  compensation_remove : float;
  num_consecutive_same_value : nat;
  prev_value : float
}.

(** The set-up at the first bar: everything is zero and the previous
    value is the first value of the column. *)
Definition roll_init (values : list float) : roll_state :=
  RollState 0 0 0 0 0 0 (default 0 (head values)).

Definition add_mean (val : float) (st : roll_state) : roll_state :=
  if notnan val then
    let y := val - compensation_add st in
    let t := sum_x st + y in
    RollState (S (nobs st)) t
      (if get_sign val then S (neg_ct st) else neg_ct st)
      (t - sum_x st - y) (compensation_remove st)
      (if PrimFloat.eqb val (prev_value st)
       then S (num_consecutive_same_value st) else 1%nat)
      val
  else st.

Definition remove_mean (val : float) (st : roll_state) : roll_state :=
  if notnan val then
    let y := - val - compensation_remove st in
    let t := sum_x st + y in
    RollState (pred (nobs st)) t
      (if get_sign val then pred (neg_ct st) else neg_ct st)
      (compensation_add st) (t - sum_x st - y)
      (num_consecutive_same_value st) (prev_value st)
  else st.

(** The count as a float; exact for every count below [2^53]. *)
Fixpoint of_nat (n : nat) : float :=
  match n with
  | O => 0
  | S k => of_nat k + 1
  end.

Definition calc_mean (minp : nat) (st : roll_state) : float :=
  if (minp <=? nobs st)%nat && (0 <? nobs st)%nat then
    let result := sum_x st / of_nat (nobs st) in
    if (nobs st <=? num_consecutive_same_value st)%nat then prev_value st
    else if (neg_ct st =? 0)%nat && PrimFloat.ltb result 0 then 0
    else if (neg_ct st =? nobs st)%nat && PrimFloat.ltb 0 result then 0
    else result
  else nan.

Fixpoint roll_loop (window minp : nat) (values : list float)
    (i : nat) (rest : list float) (st : roll_state) : list float :=
  match rest with
  | [] => []
  | v :: rest' =>
      let st1 :=
        if (window <=? i)%nat then
          match values !! (i - window)%nat with
          | Some old => remove_mean old st
          | None => st
          end
        else st in
      let st2 := add_mean v st1 in
      calc_mean minp st2 :: roll_loop window minp values (S i) rest' st2
  end.

(** [series.rolling(window=n).mean()] on a [float64] column. *)
Definition rolling_mean (window : nat) (values : list float) : list float :=
  let values := prep_values values in
  roll_loop window window values 0 values (roll_init values).

(** [series.diff()] *)
Definition diff (s : list float) : list float :=
  match s with
  | [] => []
  | _ :: t => nan :: zip_with PrimFloat.sub t s
  end.

(** Lines 86 to 90 on a [float64] column. *)
Definition rsi_gain (close : list float) : list float :=
  let delta := diff close in
  rolling_mean 14 ((fun d => if PrimFloat.ltb 0 d then d else 0) <$> delta).

Definition rsi_loss (close : list float) : list float :=
  let delta := diff close in
  rolling_mean 14 ((fun d => - (if PrimFloat.ltb d 0 then d else 0)) <$> delta).

Definition rsi_series (close : list float) : list float :=
  let gain := rsi_gain close in
  let loss := rsi_loss close in
  let rs := zip_with PrimFloat.div gain loss in
  (fun rs => 100 - (100 / (1 + rs))) <$> rs.





(** The observations of a list, as the loop counts them. *)
Fixpoint obs_count (l : list float) : nat :=
  match l with
  | [] => 0%nat
  | v :: t => if notnan v then S (obs_count t) else obs_count t
  end.

(** One turn of the loop on the state. *)
Definition step (n : nat) (values : list float) (i : nat) (v : float)
    (st : roll_state) : roll_state :=
  add_mean v
    (if (n <=? i)%nat then
       match values !! (i - n)%nat with
       | Some old => remove_mean old st
       | None => st
       end
     else st).

(** What the state holds when the loop has gone through the bars before
    [i]: the number of observations among the last [n] of them, and, when
    the last [m] of them are one and the same observation, a run of at
    least [m] equal values that ends with it. *)
Definition tracks (n : nat) (values : list float) (i : nat)
    (st : roll_state) : Prop :=
  nobs st = obs_count (Spec.trailing n i values)
  /\ forall m c, (1 <= m <= i)%nat -> notnan c = true ->
       (forall j, (i - m <= j < i)%nat -> values !! j = Some c) ->
       (m <= num_consecutive_same_value st)%nat /\ prev_value st = c.

End Binary64.

(** ** Sample inputs *)

Module Samples.

Definition closes_of (l : list Z) : list Qc := Num.of_Z <$> l.

(** 15 bars rising by 1 from 10, 15 bars falling by 10 from 200, 15 bars
    flat at 10. *)
Definition rising15 : list Qc :=
  closes_of [10; 11; 12; 13; 14; 15; 16; 17; 18; 19; 20; 21; 22; 23; 24]%Z.
Definition falling15 : list Qc :=
  closes_of [200; 190; 180; 170; 160; 150; 140; 130; 120; 110; 100; 90; 80;
             70; 60]%Z.
Definition flat15 : list Qc := replicate 15 (Num.of_Z 10).

(** 20 bars rising by 1 from 1. *)
Definition rising20 : list Qc := closes_of (Z.of_nat <$> seq 1 20).

Definition q (n d : Z) : Qc := (Num.of_Z n / Num.of_Z d)%Qc.

(** A fetched frame of two bars. *)
Definition short_frame : DataFrame :=
  Frame [Date 2024 6 18; Date 2024 6 19]
    {[ "Open" := Fin <$> closes_of [10; 11]%Z;
       "High" := Fin <$> closes_of [12; 12]%Z;
       "Low" := Fin <$> closes_of [9; 10]%Z;
       "Close" := Fin <$> closes_of [11; 12]%Z;
       "Volume" := Fin <$> closes_of [1000; 1500]%Z ]}.

(** The same frame without its [Open] column. *)
Definition no_open_frame : DataFrame :=
  Frame [Date 2024 6 18; Date 2024 6 19]
    {[ "High" := Fin <$> closes_of [12; 12]%Z;
       "Low" := Fin <$> closes_of [9; 10]%Z;
       "Close" := Fin <$> closes_of [11; 12]%Z;
       "Volume" := Fin <$> closes_of [1000; 1500]%Z ]}.

(** A frame whose [Close] column is the rising series of 20 bars. *)
Definition rising_frame : DataFrame :=
  Frame ((fun d => Date 2024 1 d) <$> seq 1 20)
    {[ "Close" := Fin <$> rising20 ]}.

(** A run in which the symbol source is down, the provider answers with
    the short frame and the user keeps the default dates. *)
Definition short_world : world :=
  World Failed (fun _ _ _ => Returned short_frame) 0
    (Date 2014 6 20) (Date 2024 6 21).

(** The same, with the end date one day before the start date. *)
Definition backwards_world : world :=
  World Failed (fun _ _ _ => Returned short_frame) 0
    (Date 2024 6 21) (Date 2024 6 20).


End Samples.

(** ** Vocabulary for the whole analysis *)

Module Analysis.

(** [s] has no dot. *)
Fixpoint dotless (s : string) : bool :=
  match s with
  | EmptyString => true
  | String c rest => negb (Ascii.eqb c "."%char) && dotless rest
  end.

(** The frame once the four indicator columns have been assigned. *)
Definition with_indicators (close : list num) (df : DataFrame) : DataFrame :=
  df_setitem "RSI" (App.rsi_series close)
    (df_setitem "SMA100" (Series.rolling_mean 100 close)
       (df_setitem "SMA50" (Series.rolling_mean 50 close)
          (df_setitem "SMA20" (Series.rolling_mean 20 close) df))).

(** The frame once the three moving averages have been assigned. *)
Definition with_moving_averages (close : list num) (df : DataFrame)
    : DataFrame :=
  df_setitem "SMA100" (Series.rolling_mean 100 close)
    (df_setitem "SMA50" (Series.rolling_mean 50 close)
       (df_setitem "SMA20" (Series.rolling_mean 20 close) df)).

(** What lines 52 to 77 show, up to the heading of the candlestick
    chart. *)
Definition shown_before_candlestick (close : list num) (latest : num)
    : list event :=
  [ StWriteNum "Latest Closing Price: " latest;
    StWriteNum " Highest Price in selected range: " (Series.max close);
    StWriteNum " Lowest Price in selected range: " (Series.min close);
    StChart "Closing Price" ["Close"];
    StChart "Volume" ["Volume"];
    StWrite "###### Moving Averages";
    StChart "" ["Close"; "SMA20"; "SMA50"; "SMA100"];
    StWrite "###### Candlestick chart" ].

(** What lines 52 to 125 show for a symbol [name], from the [Close]
    column and the latest values of the columns. *)
Definition shown (name : string) (close : list num)
    (latest rsi sma20 sma50 sma100 : num) : list event :=
  [ StWriteNum "Latest Closing Price: " latest;
    StWriteNum " Highest Price in selected range: " (Series.max close);
    StWriteNum " Lowest Price in selected range: " (Series.min close);
    StChart "Closing Price" ["Close"];
    StChart "Volume" ["Volume"];
    StWrite "###### Moving Averages";
    StChart "" ["Close"; "SMA20"; "SMA50"; "SMA100"];
    StWrite "###### Candlestick chart";
    StChart "" ["Open"; "High"; "Low"; "Close"];
    StChart "Relative Strength Index" ["RSI"];
    StWrite "Technical Indicators Summary";
    StDataframe
      [ ("Latest Close", latest); ("Highest Price", Series.max close);
        ("Lowest Price", Series.min close); ("RSI", rsi);
        ("SMA20", sma20); ("SMA50", sma50); ("SMA100", sma100) ];
    StWrite ("## Recommendations for " ++ App.split_head name);
    StWrite (App.recommend latest sma20 sma50 rsi) ].

(** What the script shows before it looks at the dates. *)
Definition preamble (symbols : list string) (catalog_error : bool) : list event :=
  [ StTitle "Advanced Stock Price Analysis App"; StWrite App.intro_text;
    ReadHtml "https://en.wikipedia.org/wiki/NIFTY_50" ]
  ++ (if catalog_error
      then [StError "Failed to fetch stock symbols. Using default list."]
      else [])
  ++ [ StSelectbox "Select a stock symbol" symbols;
       StDateInput "Start date"; StDateInput "End date" ].

(** A frame the analysis can work on: at least one bar, the five price
    columns, and [close] as its non-empty [Close] column. *)
Definition price_frame (df : DataFrame) (close : list num) : Prop :=
  index df <> []
  /\ columns df !! "Close" = Some close
  /\ close <> []
  /\ is_Some (columns df !! "Open")
  /\ is_Some (columns df !! "High")
  /\ is_Some (columns df !! "Low")
  /\ is_Some (columns df !! "Volume").

(** The symbols the picker offers in a run. *)
Definition offered (w : world) : list string :=
  match App.nse_symbols_try w with
  | Some symbols => symbols
  | None => App.default_symbols
  end.

Definition catalog_error (w : world) : bool :=
  match App.nse_symbols_try w with Some _ => false | None => true end.

End Analysis.

(** * Properties *)

(** ** Comparison and arithmetic on [num] *)

Section NumFacts.

Local Open Scope Qc_scope.

Lemma Qcltb_lt (a b : Qc) : Num.Qcltb a b = true <-> a < b.
Proof.
  unfold Num.Qcltb. rewrite Qclt_alt.
  destruct (a ?= b); split; congruence.
Qed.

Lemma Qcltb_ge (a b : Qc) : Num.Qcltb a b = false <-> b <= a.
Proof.
  split; intros H.
  - apply Qcnot_lt_le. intros Hlt. apply Qcltb_lt in Hlt. congruence.
  - destruct (Num.Qcltb a b) eqn:E; [|reflexivity].
    apply Qcltb_lt in E. exfalso. exact (Qcle_not_lt _ _ H E).
Qed.

Lemma Qceqb_eq (a b : Qc) : Num.Qceqb a b = true <-> a = b.
Proof.
  unfold Num.Qceqb. rewrite Qceq_alt.
  destruct (a ?= b); split; congruence.
Qed.

Lemma Qceqb_neq (a b : Qc) : Num.Qceqb a b = false <-> a <> b.
Proof.
  rewrite <- Qceqb_eq. destruct (Num.Qceqb a b); split; congruence.
Qed.

Lemma Qclt_irrefl (a : Qc) : ~ a < a.
Proof. intros H. exact (Qclt_not_eq _ _ H eq_refl). Qed.

(** The boolean comparison of the code decides the order relation. *)
Lemma ltb_lt (x y : num) : Num.ltb x y = true <-> Num.lt x y.
Proof.
  split.
  - destruct x, y; simpl; try discriminate; intros H; try constructor.
    by apply Qcltb_lt.
  - intros H. destruct H; simpl; try reflexivity. by apply Qcltb_lt.
Qed.

Lemma ltb_nan_l (y : num) : Num.ltb NaN y = false.
Proof. reflexivity. Qed.

Lemma ltb_nan_r (x : num) : Num.ltb x NaN = false.
Proof. by destruct x. Qed.

Lemma of_Z_pos (z : Z) : (0 < z)%Z -> 0 < Num.of_Z z.
Proof.
  intros H. unfold Num.of_Z, Qclt. cbn [this Q2Qc].
  rewrite !Qred_correct. unfold Qlt. simpl. lia.
Qed.

Lemma of_Z_neq_0 (z : Z) : (0 < z)%Z -> Num.of_Z z <> 0.
Proof.
  intros H E. apply of_Z_pos in H. rewrite E in H. exact (Qclt_irrefl _ H).
Qed.

Lemma num_eqb_eq (x y : num) : Num.eqb x y = true -> x = y.
Proof.
  destruct x, y; simpl; try discriminate; try reflexivity.
  intros H. apply Qceqb_eq in H. by subst.
Qed.

Lemma series_eqb_eq (a b : list num) : Series.eqb a b = true -> a = b.
Proof.
  revert b. induction a as [|x a IH]; intros [|y b]; simpl; try discriminate;
    [reflexivity|].
  intros H. apply andb_true_iff in H as [Hx Hab].
  f_equal; [by apply num_eqb_eq|by apply IH].
Qed.

End NumFacts.

(** ** The formula on binary64 floats *)

Section BinaryFormula.

Local Open Scope float_scope.


(** Zero over zero, whatever the signs: the ratio and the formula are
    [nan]. *)
Lemma ieee_rsi_zero_zero (gain loss : float) :
  is_zero loss = true -> is_zero gain = true -> IEEE.rsi gain loss = nan.
Proof.
  intros Hz Hg. apply Prim2SF_inj. unfold IEEE.rsi.
  rewrite sub_spec, div_spec, add_spec, div_spec.
  unfold is_zero in Hz, Hg. rewrite FloatAxioms.eqb_spec in Hz, Hg.
  change (Prim2SF zero) with (S754_zero false) in Hz, Hg.
  destruct (Prim2SF loss) as [sl|sl| |sl ml el]; cbn in Hz;
    [|destruct sl; discriminate Hz|discriminate Hz|destruct sl; discriminate Hz].
  destruct (Prim2SF gain) as [sg|sg| |sg mg eg]; cbn in Hg;
    [|destruct sg; discriminate Hg|discriminate Hg|destruct sg; discriminate Hg].
  reflexivity.
Qed.

End BinaryFormula.


(** ** The embedding on small inputs *)

Section Examples.

(** Rolling mean of window 3 over 1, 2, 3, 4, 5, 9. *)
Example rolling_mean_3 :
  Series.rolling_mean 3 (Fin <$> Samples.closes_of [1; 2; 3; 4; 5; 9]%Z)
  = [NaN; NaN; Fin (Num.of_Z 2); Fin (Num.of_Z 3); Fin (Num.of_Z 4);
     Fin (Num.of_Z 6)].
Proof. apply series_eqb_eq. vm_compute. reflexivity. Qed.

(** A missing value keeps the window short of observations. *)
Example rolling_mean_with_nan :
  Series.rolling_mean 2 [Fin (Num.of_Z 1); NaN; Fin (Num.of_Z 3);
                         Fin (Num.of_Z 5)]
  = [NaN; NaN; NaN; Fin (Num.of_Z 4)].
Proof. apply series_eqb_eq. vm_compute. reflexivity. Qed.

(** The closes 1 to 20: SMA20 is undefined up to bar 18 and is 10.5 at
    bar 19. *)
Example sma20_rising :
  Series.rolling_mean 20 (Fin <$> Samples.rising20)
  = (replicate 19 NaN ++ [Fin (Samples.q 21 2)])%list.
Proof. apply series_eqb_eq. vm_compute. reflexivity. Qed.

Example diff_first_is_nan :
  Series.diff (Fin <$> Samples.closes_of [10; 12; 11]%Z)
  = [NaN; Fin (Num.of_Z 2); Fin (Num.of_Z (-1))].
Proof. apply series_eqb_eq. vm_compute. reflexivity. Qed.

(** 16 bars rising by 1 except one fall of 1 at bar 9: over the first 14
    bars the gains sum to 14 and the losses to 1, so RSI = 100 - 100/15. *)
Example rsi_one_fall :
  App.rsi_series
    (Fin <$> Samples.closes_of
       [10; 11; 12; 13; 14; 15; 16; 17; 18; 17; 20; 21; 22; 23; 24; 25]%Z)
  = (replicate 13 NaN
     ++ [Fin (Samples.q 280 3); Fin (Samples.q 375 4); Fin (Samples.q 375 4)])%list.
Proof. apply series_eqb_eq. vm_compute. reflexivity. Qed.

Example rsi_rising :
  App.rsi_series (Fin <$> Samples.rising15)
  = (replicate 13 NaN ++ [Fin (Num.of_Z 100); Fin (Num.of_Z 100)])%list.
Proof. apply series_eqb_eq. vm_compute. reflexivity. Qed.

Example rsi_falling :
  App.rsi_series (Fin <$> Samples.falling15)
  = (replicate 13 NaN ++ [Fin (Num.of_Z 0); Fin (Num.of_Z 0)])%list.
Proof. apply series_eqb_eq. vm_compute. reflexivity. Qed.

Example rsi_flat :
  App.rsi_series (Fin <$> Samples.flat15) = replicate 15 NaN.
Proof. apply series_eqb_eq. vm_compute. reflexivity. Qed.

(** The special values of [Num] behave as those of binary64: a zero mean
    loss with a positive mean gain gives 100 whatever the sign of the
    zero, two zero means give [nan], and [nan] fails both comparisons of
    the advisor. *)
Example ieee_no_loss :
  IEEE.rsi 1 0 = 100%float /\ IEEE.rsi 1 (-0) = 100%float
  /\ Spec.rsi_formula (Num.div (Fin 1%Qc) (Fin 0%Qc)) = Fin (Num.of_Z 100).
Proof. repeat split; reflexivity. Qed.

Example ieee_zero_over_zero :
  PrimFloat.is_nan (IEEE.rsi 0 0) = true
  /\ PrimFloat.is_nan (IEEE.rsi 0 (-0)) = true
  /\ Spec.rsi_formula (Num.div (Fin 0%Qc) (Fin 0%Qc)) = NaN.
Proof. repeat split; reflexivity. Qed.

Example ieee_no_gain :
  IEEE.rsi 0 1 = 0%float
  /\ Spec.rsi_formula (Num.div (Fin 0%Qc) (Fin 1%Qc)) = Fin 0%Qc.
Proof. repeat split; reflexivity. Qed.

Example ieee_nan_is_neutral :
  IEEE.below_30 PrimFloat.nan = false /\ IEEE.above_70 PrimFloat.nan = false
  /\ Num.ltb NaN App.thirty = false /\ Num.gtb NaN App.seventy = false.
Proof. repeat split; reflexivity. Qed.

(** The two embeddings of the indicators agree on the sample series: the
    closes 1 to 20, and 15 bars rising, falling and flat. *)
Example binary64_sma20_rising :
  Binary64.rolling_mean 20
    [1; 2; 3; 4; 5; 6; 7; 8; 9; 10; 11; 12; 13; 14; 15; 16; 17; 18; 19; 20]%float
  = (replicate 19 PrimFloat.nan ++ [10.5%float])%list.
Proof. vm_compute. reflexivity. Qed.

Example binary64_rsi_rising :
  Binary64.rsi_series
    [10; 11; 12; 13; 14; 15; 16; 17; 18; 19; 20; 21; 22; 23; 24]%float
  = (replicate 13 PrimFloat.nan ++ [100; 100]%float)%list.
Proof. vm_compute. reflexivity. Qed.

Example binary64_rsi_falling :
  Binary64.rsi_series
    [200; 190; 180; 170; 160; 150; 140; 130; 120; 110; 100; 90; 80; 70; 60]%float
  = (replicate 13 PrimFloat.nan ++ [0; 0]%float)%list.
Proof. vm_compute. reflexivity. Qed.

Example binary64_rsi_flat :
  Binary64.rsi_series (replicate 15 10%float) = replicate 15 PrimFloat.nan.
Proof. vm_compute. reflexivity. Qed.

(** A whole run on two bars: every indicator is still warming up, and the
    advisor answers with its two fall-through sentences. *)
Example run_short_world :
  fst (App.run Samples.short_world) = Ok tt
  /\ last (out (snd (App.run Samples.short_world)))
     = Some (StWrite (App.hold_message ++ App.neutral_message))
  /\ StDataframe
       [("Latest Close", Fin (Num.of_Z 12)); ("Highest Price", Fin (Num.of_Z 12));
        ("Lowest Price", Fin (Num.of_Z 11)); ("RSI", NaN); ("SMA20", NaN);
        ("SMA50", NaN); ("SMA100", NaN)]
       ∈ out (snd (App.run Samples.short_world)).
Proof.
  split; [vm_compute; reflexivity|]. split; [vm_compute; reflexivity|].
  apply list_elem_of_lookup. exists 20%nat. vm_compute. reflexivity.
Qed.

End Examples.

(** ** The rolling mean with an exact sum: the state is the window *)

Section Rolling.

Local Open Scope Qc_scope.
Import Spec.

Lemma finite_count_app (l1 l2 : list num) :
  finite_count (l1 ++ l2) = (finite_count l1 + finite_count l2)%nat.
Proof.
  induction l1 as [|[]]; simpl; auto.
Qed.

Lemma finite_total_app (l1 l2 : list num) :
  finite_total (l1 ++ l2) = finite_total l1 + finite_total l2.
Proof.
  induction l1 as [|[] l1 IH]; simpl; try rewrite IH; ring.
Qed.

Lemma add_mean_snoc (l : list num) (v : num) :
  Series.add_mean v (window_state l) = window_state (l ++ [v]).
Proof.
  unfold window_state.
  rewrite finite_count_app, finite_total_app.
  destruct v; simpl; f_equal; try lia; ring.
Qed.

Lemma remove_mean_cons (l : list num) (v : num) :
  Series.remove_mean v (window_state (v :: l)) = window_state l.
Proof.
  unfold window_state. destruct v; simpl; f_equal; ring.
Qed.

(** One turn of the loop moves the window one bar to the right. *)
Lemma trailing_step (n i : nat) (values : list num) (v : num) :
  (1 <= n)%nat ->
  values !! i = Some v ->
  Series.add_mean v
    (if (n <=? i)%nat then
       match values !! (i - n)%nat with
       | Some old => Series.remove_mean old (window_state (trailing n i values))
       | None => window_state (trailing n i values)
       end
     else window_state (trailing n i values))
  = window_state (trailing n (S i) values).
Proof.
  intros Hn Hv. unfold trailing.
  destruct (Nat.leb_spec n i) as [Hle|Hlt].
  - assert (Hlen : (i < length values)%nat) by (eapply lookup_lt_Some; eauto).
    destruct (lookup_lt_is_Some_2 values (i - n)%nat) as [old Hold]; [lia|].
    rewrite Hold.
    replace (Nat.min n i) with (S (n - 1)) by lia.
    replace (Nat.min n (S i)) with (S (n - 1)) by lia.
    replace (S i - n)%nat with (S (i - n)) by lia.
    rewrite (drop_S _ _ _ Hold). cbn [take].
    rewrite remove_mean_cons, add_mean_snoc.
    f_equal. symmetry. apply take_S_r.
    rewrite lookup_drop. rewrite <- Hv. f_equal. lia.
  - replace (Nat.min n i) with i by lia.
    replace (Nat.min n (S i)) with (S i) by lia.
    replace (i - n)%nat with 0%nat by lia.
    replace (S i - n)%nat with 0%nat by lia.
    rewrite !drop_0, add_mean_snoc.
    f_equal. symmetry. by apply take_S_r.
Qed.

Lemma roll_loop_lookup (n minp : nat) (values : list num) :
  (1 <= n)%nat ->
  forall (rest : list num) (i : nat) (st : Series.roll_state) (k : nat),
    drop i values = rest ->
    st = window_state (trailing n i values) ->
    (k < length rest)%nat ->
    Series.roll_loop n minp values i rest st !! k
    = Some (Series.calc_mean minp (window_state (window n (i + k) values))).
Proof.
  intros Hn rest.
  induction rest as [|v rest IH]; intros i st k Hrest Hst Hk;
    [simpl in Hk; lia|].
  assert (Hv : values !! i = Some v).
  { rewrite <- (Nat.add_0_r i), <- lookup_drop, Hrest. reflexivity. }
  assert (Hrest' : drop (S i) values = rest).
  { rewrite (drop_S _ _ _ Hv) in Hrest. congruence. }
  cbn [Series.roll_loop]. subst st.
  rewrite (trailing_step n i values v Hn Hv).
  destruct k as [|k].
  - rewrite Nat.add_0_r. reflexivity.
  - etrans; [apply (IH (S i) _ k Hrest' eq_refl); simpl in Hk; lia|].
    do 3 f_equal. unfold window. f_equal. lia.
Qed.

(** At every bar the rolling mean is computed from the observations of
    the window that ends there. *)
Lemma rolling_mean_lookup (n : nat) (values : list num) (i : nat) :
  (1 <= n)%nat -> (i < length values)%nat ->
  Series.rolling_mean n values !! i
  = Some (Series.calc_mean n (window_state (window n i values))).
Proof.
  intros Hn Hi. unfold Series.rolling_mean.
  apply (roll_loop_lookup n n values Hn values 0 _ i); auto.
  unfold trailing. rewrite Nat.min_0_r. reflexivity.
Qed.

Lemma roll_loop_length (n minp : nat) (values rest : list num) (i : nat)
    (st : Series.roll_state) :
  length (Series.roll_loop n minp values i rest st) = length rest.
Proof.
  revert i st. induction rest as [|v rest IH]; intros i st; simpl; auto.
Qed.

Lemma rolling_mean_length (n : nat) (values : list num) :
  length (Series.rolling_mean n values) = length values.
Proof. apply roll_loop_length. Qed.

End Rolling.

(** ** Columns without missing values *)

Section Columns.

Local Open Scope Qc_scope.
Import Spec.

Lemma finite_count_column (l : list Qc) : finite_count (column l) = length l.
Proof. induction l; simpl; auto. Qed.

Lemma finite_total_column (l : list Qc) : finite_total (column l) = total l.
Proof. induction l as [|a l IH]; simpl; [|rewrite IH]; reflexivity. Qed.

Lemma window_column (n i : nat) (l : list Qc) :
  window n i (column l) = column (window n i l).
Proof.
  unfold window, trailing, column. by rewrite fmap_take, fmap_drop.
Qed.

Lemma window_length {A} (n i : nat) (l : list A) :
  (i < length l)%nat -> length (window n i l) = Nat.min n (S i).
Proof.
  intros Hi. unfold window, trailing. rewrite length_take, length_drop. lia.
Qed.

(** On a column of finite values the rolling mean is the arithmetic mean
    of the window once [n] bars are there, and [nan] before. *)
Lemma rolling_mean_column (n : nat) (l : list Qc) (i : nat) :
  (1 <= n)%nat -> (i < length l)%nat ->
  Series.rolling_mean n (column l) !! i
  = Some (if (n <=? S i)%nat then Fin (mean (window n i l)) else NaN).
Proof.
  intros Hn Hi.
  rewrite rolling_mean_lookup; [|done|by unfold column; rewrite length_fmap].
  f_equal. unfold Series.calc_mean, window_state. cbn [Series.nobs Series.sum_x].
  rewrite window_column, finite_count_column, finite_total_column.
  rewrite (window_length n i l Hi). unfold mean.
  rewrite (window_length n i l Hi).
  destruct (Nat.leb_spec n (S i)) as [Hle|Hlt].
  - replace (Nat.min n (S i)) with n by lia.
    rewrite Nat.leb_refl.
    destruct (Nat.ltb_spec 0 n); [reflexivity|lia].
  - replace (Nat.min n (S i)) with (S i) by lia.
    destruct (Nat.leb_spec n (S i)); [lia|reflexivity].
Qed.

Lemma window_full {A} (n i : nat) (l : list A) :
  (n <= S i)%nat -> window n i l = take n (drop (S i - n) l).
Proof.
  intros H. unfold window, trailing. by replace (Nat.min n (S i)) with n by lia.
Qed.

End Columns.

(** ** Running the frame operations of the script *)

Section Script.

Lemma bind_ok {A B} (m : M A) (k : A -> M B) (st st' : state) (a : A) :
  m st = (Ok a, st') -> bind m k st = k a st'.
Proof. intros H. unfold bind. by rewrite H. Qed.

Lemma getitem_ok (l : loc) (name : string) (st : state) (df : DataFrame)
    (col : list num) :
  frames st !! l = Some df -> columns df !! name = Some col ->
  getitem l name st = (Ok col, st).
Proof.
  intros Hl Hc. unfold getitem, bind, read_frame. rewrite Hl. simpl.
  by rewrite Hc.
Qed.

Lemma setitem_ok (l : loc) (name : string) (col : list num) (st : state)
    (df : DataFrame) :
  frames st !! l = Some df ->
  setitem l name col st
  = (Ok tt, State (<[l := df_setitem name col df]> (frames st)) (out st)).
Proof. intros Hl. unfold setitem. by rewrite Hl. Qed.

(** Lines 70 to 72 on a frame with a [Close] column: the three columns are
    written into the same frame object. *)
Lemma moving_averages_run (l : loc) (st : state) (df : DataFrame)
    (close : list num) :
  frames st !! l = Some df -> columns df !! "Close" = Some close ->
  App.moving_averages l st
  = (Ok tt,
     State (<[l := Frame (index df)
                     (<["SMA100" := Series.rolling_mean 100 close]>
                        (<["SMA50" := Series.rolling_mean 50 close]>
                           (<["SMA20" := Series.rolling_mean 20 close]>
                              (columns df))))]> (frames st))
           (out st)).
Proof.
  intros Hl Hc. unfold App.moving_averages.
  rewrite (bind_ok _ _ _ _ _ (getitem_ok _ _ _ _ _ Hl Hc)).
  rewrite (bind_ok _ _ _ _ _ (setitem_ok _ _ _ _ _ Hl)).
  set (df1 := df_setitem "SMA20" _ df).
  set (st1 := State _ _).
  assert (Hl1 : frames st1 !! l = Some df1) by apply lookup_insert_eq.
  assert (Hc1 : columns df1 !! "Close" = Some close).
  { unfold df1, df_setitem. cbn [columns]. by rewrite lookup_insert_ne. }
  rewrite (bind_ok _ _ _ _ _ (getitem_ok _ _ _ _ _ Hl1 Hc1)).
  rewrite (bind_ok _ _ _ _ _ (setitem_ok _ _ _ _ _ Hl1)).
  set (df2 := df_setitem "SMA50" _ df1).
  set (st2 := State _ _).
  assert (Hl2 : frames st2 !! l = Some df2) by apply lookup_insert_eq.
  assert (Hc2 : columns df2 !! "Close" = Some close).
  { unfold df2, df_setitem. cbn [columns]. by rewrite lookup_insert_ne. }
  rewrite (bind_ok _ _ _ _ _ (getitem_ok _ _ _ _ _ Hl2 Hc2)).
  rewrite (setitem_ok _ _ _ _ _ Hl2).
  unfold st2, st1. cbn [frames out]. by rewrite !insert_insert_eq.
Qed.

Lemma relative_strength_run (l : loc) (st : state) (df : DataFrame)
    (close : list num) :
  frames st !! l = Some df -> columns df !! "Close" = Some close ->
  App.relative_strength l st
  = (Ok tt,
     State (<[l := Frame (index df)
                     (<["RSI" := App.rsi_series close]> (columns df))]>
              (frames st))
           (out st)).
Proof.
  intros Hl Hc. unfold App.relative_strength.
  rewrite (bind_ok _ _ _ _ _ (getitem_ok _ _ _ _ _ Hl Hc)).
  by rewrite (setitem_ok _ _ _ _ _ Hl).
Qed.

End Script.

(** ** Moving averages *)

Section MovingAverages.

Import Spec.

(** With an exact sum the loop computes the arithmetic mean of the
    window.  This is a fact of the idealised loop only: the [float64] sum
    rounds and overflows, see [Binary64.rolling_mean]. *)
Lemma rolling_mean_is_sma (n : nat) (closes : list Qc) :
  (1 <= n)%nat -> is_sma n closes (Series.rolling_mean n (column closes)).
Proof.
  intros Hn. split.
  - rewrite rolling_mean_length. unfold column. by rewrite length_fmap.
  - intros i Hi. rewrite (rolling_mean_column n closes i Hn Hi). split; intros H.
    + destruct (Nat.leb_spec n (S i)); [|lia].
      rewrite window_full by lia. reflexivity.
    + destruct (Nat.leb_spec n (S i)); [lia|reflexivity].
Qed.

End MovingAverages.

(** ** Gains and losses *)

Section GainsLosses.

Local Open Scope Qc_scope.
Import Spec.

Lemma where_gt (s : list num) (c other : num) :
  Series.where_ s (Series.gt s c) other
  = (fun x => if Num.gtb x c then x else other) <$> s.
Proof.
  unfold Series.where_, Series.gt.
  induction s as [|x s IH]; [reflexivity|]. simpl. f_equal. exact IH.
Qed.

Lemma where_lt (s : list num) (c other : num) :
  Series.where_ s (Series.lt s c) other
  = (fun x => if Num.ltb x c then x else other) <$> s.
Proof.
  unfold Series.where_, Series.lt.
  induction s as [|x s IH]; [reflexivity|]. simpl. f_equal. exact IH.
Qed.

Lemma Qcopp_0 : - 0 = 0.
Proof. ring. Qed.

Lemma gain_part (t u : list Qc) :
  (fun x => if Num.gtb x Num.zero then x else Num.zero)
    <$> zip_with Num.sub (column t) (column u)
  = column (zip_with (fun c p => gain_of (c - p)) t u).
Proof.
  revert u. induction t as [|c t IH]; intros [|p u]; simpl; auto.
  rewrite IH. f_equal. unfold gain_of, Qcminus.
  by destruct (Num.Qcltb 0 (c + - p)).
Qed.

Lemma loss_part (t u : list Qc) :
  Num.neg <$> ((fun x => if Num.ltb x Num.zero then x else Num.zero)
                 <$> zip_with Num.sub (column t) (column u))
  = column (zip_with (fun c p => loss_of (c - p)) t u).
Proof.
  revert u. induction t as [|c t IH]; intros [|p u]; simpl; auto.
  rewrite IH. f_equal. unfold loss_of, Qcminus.
  destruct (Num.Qcltb (c + - p) 0); simpl; [reflexivity|by rewrite Qcopp_0].
Qed.

(** The series whose rolling means the script takes are the gains and the
    losses of the bars. *)
Lemma gains_column (closes : list Qc) :
  Series.where_ (Series.diff (column closes))
    (Series.gt (Series.diff (column closes)) Num.zero) Num.zero
  = column (bar_gains closes).
Proof.
  rewrite where_gt. destruct closes as [|c t]; [reflexivity|].
  cbn [column fmap list_fmap Series.diff bar_gains].
  f_equal. apply (gain_part t (c :: t)).
Qed.

Lemma losses_column (closes : list Qc) :
  Series.neg (Series.where_ (Series.diff (column closes))
                (Series.lt (Series.diff (column closes)) Num.zero) Num.zero)
  = column (bar_losses closes).
Proof.
  rewrite where_lt. unfold Series.neg.
  destruct closes as [|c t]; [reflexivity|].
  cbn [column fmap list_fmap Series.diff bar_losses].
  f_equal. apply (loss_part t (c :: t)).
Qed.

Lemma gain_of_nonneg (c : Qc) : 0 <= gain_of c.
Proof.
  unfold gain_of. destruct (Num.Qcltb 0 c) eqn:E.
  - apply Qclt_le_weak. by apply Qcltb_lt.
  - apply Qcle_refl.
Qed.


End GainsLosses.

(** ** The RSI formula on its three kinds of input *)

Section Formula.

Local Open Scope Qc_scope.
Import Spec.


(** Both means are zero: [0/0] is [nan] and stays [nan]. *)
Lemma rsi_formula_zero_zero : rsi_formula (Num.div (Fin 0) (Fin 0)) = NaN.
Proof. reflexivity. Qed.

(** Zero mean loss and positive mean gain: the ratio is infinite and the
    formula gives 100. *)
Lemma rsi_formula_no_loss (g : Qc) :
  0 < g -> rsi_formula (Num.div (Fin g) (Fin 0)) = Fin (Num.of_Z 100).
Proof.
  intros Hg. unfold rsi_formula. cbn [Num.div].
  replace (Num.Qceqb 0 0) with true by reflexivity.
  assert (Hne : Num.Qceqb g 0 = false).
  { apply Qceqb_neq. intros E. rewrite E in Hg. exact (Qclt_irrefl _ Hg). }
  rewrite Hne. apply Qcltb_lt in Hg. rewrite Hg. reflexivity.
Qed.






End Formula.

(** ** Windows of gains and losses *)

Section Windows.

Local Open Scope Qc_scope.
Import Spec.

Lemma bar_gains_length (closes : list Qc) :
  length (bar_gains closes) = length closes.
Proof.
  destruct closes as [|c t]; [reflexivity|]. cbn [bar_gains length].
  rewrite length_zip_with. cbn [length]. lia.
Qed.

Lemma bar_losses_length (closes : list Qc) :
  length (bar_losses closes) = length closes.
Proof.
  destruct closes as [|c t]; [reflexivity|]. cbn [bar_losses length].
  rewrite length_zip_with. cbn [length]. lia.
Qed.

Lemma bar_lookup (f : Qc -> Qc) (c : Qc) (t : list Qc) (j : nat) :
  (S j < length (c :: t))%nat ->
  (0 :: zip_with (fun c p => f (c - p)) t (c :: t)) !! S j
  = Some (f (change (c :: t) (S j))).
Proof.
  intros Hj. cbn [length] in Hj.
  destruct (lookup_lt_is_Some_2 t j) as [x Hx]; [lia|].
  destruct (lookup_lt_is_Some_2 (c :: t) j) as [p Hp]; [cbn [length]; lia|].
  change ((0 :: zip_with (fun c p => f (c - p)) t (c :: t)) !! S j)
    with (zip_with (fun c p => f (c - p)) t (c :: t) !! j).
  rewrite lookup_zip_with, Hx. cbn [mbind option_bind]. rewrite Hp.
  cbn [mbind option_bind]. unfold change.
  change ((c :: t) !! S j) with (t !! j). rewrite Hx.
  cbn [pred]. rewrite Hp. reflexivity.
Qed.

Lemma bar_gains_lookup (closes : list Qc) (j : nat) :
  (1 <= j < length closes)%nat ->
  bar_gains closes !! j = Some (gain_of (change closes j)).
Proof.
  intros [H1 H2]. destruct closes as [|c t]; [simpl in H2; lia|].
  destruct j as [|j]; [lia|]. by apply bar_lookup.
Qed.

Lemma bar_losses_lookup (closes : list Qc) (j : nat) :
  (1 <= j < length closes)%nat ->
  bar_losses closes !! j = Some (loss_of (change closes j)).
Proof.
  intros [H1 H2]. destruct closes as [|c t]; [simpl in H2; lia|].
  destruct j as [|j]; [lia|]. by apply bar_lookup.
Qed.

Lemma bar_gains_first (closes : list Qc) (x : Qc) :
  bar_gains closes !! 0%nat = Some x -> x = 0.
Proof. destruct closes; simpl; congruence. Qed.

Lemma bar_losses_first (closes : list Qc) (x : Qc) :
  bar_losses closes !! 0%nat = Some x -> x = 0.
Proof. destruct closes; simpl; congruence. Qed.

(** An entry of the window that ends at bar [i] is the entry of some bar
    [j] with [i-n < j <= i]. *)
Lemma window_lookup {A} (n i : nat) (l : list A) (k : nat) (x : A) :
  window n i l !! k = Some x ->
  exists j, l !! j = Some x /\ (S i - n <= j)%nat /\ (j <= i)%nat.
Proof.
  unfold window, trailing. intros H.
  apply lookup_take_Some in H as [H Hk]. rewrite lookup_drop in H.
  exists (S i - n + k)%nat. split; [exact H|lia].
Qed.

(** The bar [i] itself is in the window that ends at it. *)
Lemma window_last {A} (n i : nat) (l : list A) (x : A) :
  (1 <= n)%nat -> l !! i = Some x -> x ∈ window n i l.
Proof.
  intros Hn Hx. apply list_elem_of_lookup.
  exists (i - (S i - n))%nat. unfold window, trailing.
  rewrite lookup_take_lt by lia. rewrite lookup_drop.
  rewrite <- Hx. f_equal. lia.
Qed.

Lemma window_Forall {A} (P : A -> Prop) (n i : nat) (l : list A) :
  (forall j x, (S i - n <= j <= i)%nat -> l !! j = Some x -> P x) ->
  Forall P (window n i l).
Proof.
  intros H. apply Forall_lookup. intros k x Hk.
  apply window_lookup in Hk as (j & Hj & H1 & H2). eauto.
Qed.

End Windows.

(** ** Totals and means of non-negative numbers *)

Section Means.

Local Open Scope Qc_scope.
Import Spec.

Lemma total_nonneg (l : list Qc) : Forall (fun x => 0 <= x) l -> 0 <= total l.
Proof.
  induction 1 as [|x l Hx _ IH]; simpl; [apply Qcle_refl|].
  rewrite <- (Qcplus_0_r 0). by apply Qcplus_le_compat.
Qed.

Lemma total_zero (l : list Qc) : Forall (fun x => x = 0) l -> total l = 0.
Proof.
  induction 1 as [|x l Hx _ IH]; simpl; [reflexivity|].
  rewrite Hx, IH. ring.
Qed.

Lemma Qcplus_pos_nonneg (a b : Qc) : 0 < a -> 0 <= b -> 0 < a + b.
Proof.
  intros Ha Hb. eapply Qclt_le_trans; [exact Ha|].
  rewrite <- (Qcplus_0_r a) at 1.
  apply Qcplus_le_compat; [apply Qcle_refl|exact Hb].
Qed.

Lemma total_pos (l : list Qc) (x : Qc) :
  Forall (fun x => 0 <= x) l -> x ∈ l -> 0 < x -> 0 < total l.
Proof.
  intros Hall Hin Hx. induction Hall as [|y l Hy Hall IH]; simpl.
  - by apply elem_of_nil in Hin.
  - apply elem_of_cons in Hin as [<-|Hin].
    + apply Qcplus_pos_nonneg; [exact Hx|by apply total_nonneg].
    + rewrite Qcplus_comm. apply Qcplus_pos_nonneg; [by apply IH|exact Hy].
Qed.

Lemma count_pos (n : nat) : (1 <= n)%nat -> 0 < Num.of_Z (Z.of_nat n).
Proof. intros H. apply of_Z_pos. lia. Qed.


Lemma mean_zero (l : list Qc) : Forall (fun x => x = 0) l -> mean l = 0.
Proof.
  intros Hall. unfold mean. rewrite total_zero by done.
  unfold Qcdiv. ring.
Qed.

Lemma mean_pos (l : list Qc) (x : Qc) :
  Forall (fun x => 0 <= x) l -> x ∈ l -> 0 < x -> 0 < mean l.
Proof.
  intros Hall Hin Hx. unfold mean, Qcdiv.
  assert (Hlen : (1 <= length l)%nat).
  { destruct l; [by apply elem_of_nil in Hin|simpl; lia]. }
  rewrite <- (Qcmult_0_l (/ Num.of_Z (Z.of_nat (length l)))).
  apply Qcmult_lt_compat_r; [apply Qcinv_pos; by apply count_pos|].
  by apply (total_pos l x).
Qed.

Lemma bar_gains_nonneg (closes : list Qc) (j : nat) (x : Qc) :
  bar_gains closes !! j = Some x -> 0 <= x.
Proof.
  intros H. destruct j as [|j].
  - apply bar_gains_first in H as ->. apply Qcle_refl.
  - rewrite bar_gains_lookup in H.
    + inversion H. apply gain_of_nonneg.
    + apply lookup_lt_Some in H. rewrite bar_gains_length in H. lia.
Qed.


End Means.

(** ** The RSI column *)

Section RSI.

Local Open Scope Qc_scope.
Import Spec.

(** The RSI column bar by bar: [nan] for the first 13 bars, then the
    formula on the ratio of the mean gain and the mean loss of the
    window of 14 bars. *)
Lemma rsi_series_lookup (closes : list Qc) (i : nat) :
  (i < length closes)%nat ->
  App.rsi_series (column closes) !! i
  = Some (if (14 <=? S i)%nat then
            rsi_formula
              (Num.div (Fin (mean (window 14 i (bar_gains closes))))
                       (Fin (mean (window 14 i (bar_losses closes)))))
          else NaN).
Proof.
  intros Hi.
  unfold App.rsi_series, App.rsi_gain, App.rsi_loss. cbv zeta.
  rewrite gains_column, losses_column.
  unfold App.rsi_of_rs, Series.rsub, Series.rdiv, Series.radd, Series.div.
  rewrite !list_lookup_fmap, lookup_zip_with.
  rewrite (rolling_mean_column 14 (bar_gains closes) i)
    by (rewrite ?bar_gains_length; lia).
  rewrite (rolling_mean_column 14 (bar_losses closes) i)
    by (rewrite ?bar_losses_length; lia).
  destruct (14 <=? S i)%nat; reflexivity.
Qed.


Lemma window_gains_nonneg (closes : list Qc) (i : nat) :
  Forall (fun x => 0 <= x) (window 14 i (bar_gains closes)).
Proof. apply window_Forall. intros j x _. apply bar_gains_nonneg. Qed.




End RSI.

(** ** Monotone and flat series *)

Section Monotone.

Local Open Scope Qc_scope.
Import Spec.

Lemma increasingb_spec (l : list Qc) :
  increasingb l = true -> strictly_increasing l.
Proof.
  induction l as [|a [|b t] IH]; intros H j x y Hx Hy.
  - destruct j; discriminate.
  - destruct j; discriminate.
  - cbn [increasingb] in H. apply andb_true_iff in H as [Hab Ht].
    destruct j as [|j].
    + inversion Hx; inversion Hy; subst. by apply Qcltb_lt.
    + exact (IH Ht j x y Hx Hy).
Qed.


Lemma change_lookup (closes : list Qc) (j : nat) :
  (1 <= j < length closes)%nat ->
  exists c p, closes !! j = Some c /\ closes !! pred j = Some p
              /\ change closes j = c - p.
Proof.
  intros [H1 H2].
  destruct (lookup_lt_is_Some_2 closes j) as [c Hc]; [lia|].
  destruct (lookup_lt_is_Some_2 closes (pred j)) as [p Hp]; [lia|].
  exists c, p. unfold change. by rewrite Hc, Hp.
Qed.

Lemma change_increasing (closes : list Qc) (j : nat) :
  strictly_increasing closes -> (1 <= j < length closes)%nat ->
  0 < change closes j.
Proof.
  intros Hinc Hj. destruct (change_lookup closes j Hj) as (c & p & Hc & Hp & ->).
  destruct j as [|j]; [lia|]. cbn [pred] in Hp.
  exact (proj1 (Qclt_minus_iff p c) (Hinc j p c Hp Hc)).
Qed.


Lemma change_flat (closes : list Qc) (j : nat) (c : Qc) :
  closes !! j = Some c -> closes !! pred j = Some c -> change closes j = 0.
Proof. intros Hc Hp. unfold change. rewrite Hc, Hp. ring. Qed.

Lemma gain_of_pos (c : Qc) : 0 < c -> gain_of c = c.
Proof. intros H. unfold gain_of. apply Qcltb_lt in H. by rewrite H. Qed.

Lemma gain_of_nonpos (c : Qc) : c <= 0 -> gain_of c = 0.
Proof. intros H. unfold gain_of. apply Qcltb_ge in H. by rewrite H. Qed.


Lemma loss_of_nonneg_arg (c : Qc) : 0 <= c -> loss_of c = 0.
Proof. intros H. unfold loss_of. apply Qcltb_ge in H. by rewrite H. Qed.


(** In a rising series no bar has a loss and every bar but the first has
    a gain; in a falling series it is the other way round. *)
Lemma increasing_losses (closes : list Qc) (j : nat) (x : Qc) :
  strictly_increasing closes -> bar_losses closes !! j = Some x -> x = 0.
Proof.
  intros Hinc H. destruct j as [|j]; [by apply bar_losses_first in H|].
  assert (Hj : (1 <= S j < length closes)%nat).
  { apply lookup_lt_Some in H. rewrite bar_losses_length in H. lia. }
  rewrite bar_losses_lookup in H by done. inversion H.
  apply loss_of_nonneg_arg, Qclt_le_weak. by apply change_increasing.
Qed.

Lemma increasing_gain (closes : list Qc) (j : nat) :
  strictly_increasing closes -> (1 <= j < length closes)%nat ->
  exists x, bar_gains closes !! j = Some x /\ 0 < x.
Proof.
  intros Hinc Hj. exists (gain_of (change closes j)).
  split; [by apply bar_gains_lookup|].
  rewrite gain_of_pos; by apply change_increasing.
Qed.



(** RSI of a rising series: 100 from bar 13 on. *)
Lemma rsi_increasing (closes : list Qc) (i : nat) :
  strictly_increasing closes -> (13 <= i < length closes)%nat ->
  App.rsi_series (column closes) !! i = Some (Fin (Num.of_Z 100)).
Proof.
  intros Hinc [Hi Hlen]. rewrite rsi_series_lookup by done.
  destruct (Nat.leb_spec 14 (S i)); [|lia]. f_equal.
  rewrite (mean_zero (window 14 i (bar_losses closes))).
  - apply rsi_formula_no_loss.
    destruct (increasing_gain closes i Hinc) as (x & Hx & Hpos); [lia|].
    apply (mean_pos _ x); [apply window_gains_nonneg| |exact Hpos].
    apply window_last; [lia|exact Hx].
  - apply window_Forall. intros j x _ Hx. by eapply increasing_losses.
Qed.



End Monotone.

(** ** RSI: the claims *)

Section RSIClaims.

Local Open Scope Qc_scope.
Import Spec.

Lemma window_bars (f : Qc -> Qc) (bars closes : list Qc) (i : nat) :
  (14 <= i < length closes)%nat ->
  length bars = length closes ->
  (forall j, (1 <= j < length closes)%nat ->
             bars !! j = Some (f (change closes j))) ->
  window 14 i bars = (fun j => f (change closes j)) <$> seq (i - 13) 14.
Proof.
  intros [Hi Hlen] Hbars Hlookup. apply list_eq. intros k.
  unfold window, trailing.
  replace (Nat.min 14 (S i)) with 14%nat by lia.
  destruct (decide (k < 14)%nat) as [Hk|Hk].
  - rewrite lookup_take_lt by done. rewrite lookup_drop.
    rewrite Hlookup by lia.
    rewrite list_lookup_fmap, lookup_seq_lt by done.
    reflexivity.
  - rewrite lookup_take_ge by lia. symmetry. apply lookup_ge_None.
    rewrite length_fmap, length_seq. lia.
Qed.

(** From bar 14 on, the window means of the script are the mean gain and
    the mean loss of the last 14 changes. *)
Lemma window_mean_gain (closes : list Qc) (i : nat) :
  (14 <= i < length closes)%nat ->
  mean (window 14 i (bar_gains closes)) = mean_gain closes i.
Proof.
  intros Hi. unfold mean_gain. f_equal.
  apply window_bars; [done|apply bar_gains_length|apply bar_gains_lookup].
Qed.

Lemma window_mean_loss (closes : list Qc) (i : nat) :
  (14 <= i < length closes)%nat ->
  mean (window 14 i (bar_losses closes)) = mean_loss closes i.
Proof.
  intros Hi. unfold mean_loss. f_equal.
  apply window_bars; [done|apply bar_losses_length|apply bar_losses_lookup].
Qed.

Lemma rsi_by_formula (closes : list Qc) (i : nat) :
  (14 <= i < length closes)%nat ->
  App.rsi_series (column closes) !! i
  = Some (rsi_formula (Num.div (Fin (mean_gain closes i))
                               (Fin (mean_loss closes i)))).
Proof.
  intros Hi. rewrite rsi_series_lookup by lia.
  destruct (Nat.leb_spec 14 (S i)); [|lia].
  by rewrite window_mean_gain, window_mean_loss.
Qed.

End RSIClaims.

Section RSITheorems.

Local Open Scope Qc_scope.
Import Spec.



Lemma flat_changes (f : Qc -> Qc) (closes : list Qc) (i : nat) :
  flat_run closes i -> f 0 = 0 ->
  Forall (fun x => x = 0) ((fun j => f (change closes j)) <$> seq (i - 13) 14).
Proof.
  intros [Hi [c Hc]] Hf. apply Forall_forall. intros x Hx.
  apply list_elem_of_fmap in Hx as (j & -> & Hj).
  apply elem_of_seq in Hj.
  rewrite (change_flat closes j c); [exact Hf| |]; apply Hc; lia.
Qed.

(** C10.  When the bars [i-14] to [i] of a series all have the same close
    (a flat run of 15 bars ending at bar [i]), the mean gain and the mean
    loss at bar [i] are both 0 and the RSI computed at bar [i] is
    undefined ([nan]): it is neither 100 nor 0. *)
Theorem rsi_flat_run_is_nan (closes : list Qc) (i : nat) :
  flat_run closes i ->
  mean_gain closes i = 0 /\ mean_loss closes i = 0
  /\ App.rsi_series (column closes) !! i = Some NaN.
Proof.
  intros Hflat.
  assert (Hg : mean_gain closes i = 0).
  { apply mean_zero, flat_changes; [exact Hflat|].
    apply gain_of_nonpos, Qcle_refl. }
  assert (Hl : mean_loss closes i = 0).
  { apply mean_zero, flat_changes; [exact Hflat|].
    apply loss_of_nonneg_arg, Qcle_refl. }
  split; [exact Hg|split; [exact Hl|]].
  destruct Hflat as [Hi [c Hc]].
  assert (Hlen : (i < length closes)%nat).
  { apply (lookup_lt_Some closes i c), Hc. lia. }
  rewrite rsi_by_formula by lia. rewrite Hg, Hl.
  by rewrite rsi_formula_zero_zero.
Qed.

Lemma rsi_flat_run_is_nan_witness :
  App.rsi_series (column Samples.flat15) !! 14%nat = Some NaN.
Proof.
  apply (rsi_flat_run_is_nan Samples.flat15 14).
  split; [lia|]. exists (Num.of_Z 10). intros j Hj.
  apply lookup_replicate_2. lia.
Defined.




End RSITheorems.

(** ** The advisor *)

Section Advisor.

Import Spec.

Lemma recommend_split (close sma20 sma50 rsi : num) :
  App.recommend close sma20 sma50 rsi
  = (if Num.gtb close sma20 && Num.gtb sma20 sma50 then App.buy_message
     else if Num.ltb close sma20 && Num.ltb sma20 sma50 then App.sell_message
     else App.hold_message)
    ++ (if Num.ltb rsi App.thirty then App.oversold_message
        else if Num.gtb rsi App.seventy then App.overbought_message
        else App.neutral_message).
Proof.
  unfold App.recommend.
  destruct (Num.gtb close sma20 && Num.gtb sma20 sma50);
    [|destruct (Num.ltb close sma20 && Num.ltb sma20 sma50)];
    (destruct (Num.ltb rsi App.thirty);
       [|destruct (Num.gtb rsi App.seventy)]); reflexivity.
Qed.

Lemma chain_true (x y z : num) :
  Num.ltb x y && Num.ltb y z = true <-> Num.lt x y /\ Num.lt y z.
Proof. rewrite andb_true_iff, !ltb_lt. reflexivity. Qed.

Lemma chain_false (x y z : num) :
  Num.ltb x y && Num.ltb y z = false <-> ~ (Num.lt x y /\ Num.lt y z).
Proof.
  rewrite <- chain_true. destruct (Num.ltb x y && Num.ltb y z); split;
    congruence.
Qed.

(** C3.  The first sentence of the recommendation follows the trend rule
    in this order: the Buy message when [close > SMA20 > SMA50]; else the
    Sell message when [close < SMA20 < SMA50]; else the Hold message.  The
    second sentence depends on the RSI only.  With close 105, SMA20 104,
    SMA50 103 the first sentence is Buy; with 95, 96, 97 it is Sell; with
    100, 100, 105 it is Hold. *)
Theorem trend_rule_first_match (rsi : num) :
  exists rsi_part,
    rsi_part ∈ [App.oversold_message; App.overbought_message;
                App.neutral_message]
    /\ (forall close sma20 sma50,
          (Num.lt sma20 close /\ Num.lt sma50 sma20 ->
           App.recommend close sma20 sma50 rsi = App.buy_message ++ rsi_part)
          /\ (~ (Num.lt sma20 close /\ Num.lt sma50 sma20) ->
              Num.lt close sma20 /\ Num.lt sma20 sma50 ->
              App.recommend close sma20 sma50 rsi
              = App.sell_message ++ rsi_part)
          /\ (~ (Num.lt sma20 close /\ Num.lt sma50 sma20) ->
              ~ (Num.lt close sma20 /\ Num.lt sma20 sma50) ->
              App.recommend close sma20 sma50 rsi
              = App.hold_message ++ rsi_part))
    /\ App.recommend (Fin (Num.of_Z 105)) (Fin (Num.of_Z 104))
         (Fin (Num.of_Z 103)) rsi = App.buy_message ++ rsi_part
    /\ App.recommend (Fin (Num.of_Z 95)) (Fin (Num.of_Z 96))
         (Fin (Num.of_Z 97)) rsi = App.sell_message ++ rsi_part
    /\ App.recommend (Fin (Num.of_Z 100)) (Fin (Num.of_Z 100))
         (Fin (Num.of_Z 105)) rsi = App.hold_message ++ rsi_part.
Proof.
  exists (if Num.ltb rsi App.thirty then App.oversold_message
          else if Num.gtb rsi App.seventy then App.overbought_message
          else App.neutral_message).
  split; [|split; [|split; [|split]]].
  2:{ intros close sma20 sma50. rewrite recommend_split. unfold Num.gtb.
      split; [|split].
      - intros [H1 H2].
        assert (E : Num.ltb sma20 close && Num.ltb sma50 sma20 = true)
          by (rewrite andb_true_iff, !ltb_lt; done).
        rewrite E. reflexivity.
      - intros Hn Hs.
        assert (E : Num.ltb sma20 close && Num.ltb sma50 sma20 = false).
        { destruct (Num.ltb sma20 close && Num.ltb sma50 sma20) eqn:E'; [|done].
          rewrite andb_true_iff, !ltb_lt in E'. tauto. }
        rewrite E. apply chain_true in Hs. rewrite Hs. reflexivity.
      - intros Hn Hs.
        assert (E : Num.ltb sma20 close && Num.ltb sma50 sma20 = false).
        { destruct (Num.ltb sma20 close && Num.ltb sma50 sma20) eqn:E'; [|done].
          rewrite andb_true_iff, !ltb_lt in E'. tauto. }
        rewrite E. apply chain_false in Hs. rewrite Hs. reflexivity. }
  2,3,4: rewrite recommend_split; reflexivity.
  destruct (Num.ltb rsi App.thirty); [|destruct (Num.gtb rsi App.seventy)];
    rewrite !elem_of_cons; tauto.
Qed.

Lemma trend_rule_first_match_witness :
  exists rsi_part,
    App.recommend (Fin (Num.of_Z 3)) (Fin (Num.of_Z 2)) (Fin (Num.of_Z 1)) NaN
    = App.buy_message ++ rsi_part.
Proof.
  destruct (trend_rule_first_match NaN) as (rsi_part & _ & H & _).
  exists rsi_part. apply H. split; apply ltb_lt; reflexivity.
Defined.

End Advisor.

Section AdvisorRSI.

Import Spec.
Local Open Scope Qc_scope.

Lemma above_seventy_not_below_thirty (rsi : num) :
  Num.lt App.seventy rsi -> Num.ltb rsi App.thirty = false.
Proof.
  intros H. destruct (Num.ltb rsi App.thirty) eqn:E; [|reflexivity].
  apply ltb_lt in E. exfalso.
  inversion H as [a b Hab| | |]; subst; inversion E as [a' b' Hlow| | |]; subst.
  assert (H37 : Num.of_Z 30 < Num.of_Z 70) by reflexivity.
  exact (Qclt_irrefl _ (Qclt_trans _ _ _ Hlow (Qclt_trans _ _ _ H37 Hab))).
Qed.

Lemma ltb_false (x y : num) : Num.ltb x y = false <-> ~ Num.lt x y.
Proof.
  rewrite <- ltb_lt. destruct (Num.ltb x y); split; congruence.
Qed.

(** C4.  The second sentence of the recommendation follows the RSI rule
    with strict inequalities: for a defined RSI, the Oversold message when
    [RSI < 30], the Overbought message when [RSI > 70], the Neutral
    message otherwise; 30 and 70 themselves are Neutral, 29.9 is Oversold
    and 70.1 is Overbought.  The first sentence does not depend on the
    RSI. *)
Theorem rsi_rule_strict (close sma20 sma50 : num) :
  exists trend_part,
    trend_part ∈ [App.buy_message; App.sell_message; App.hold_message]
    /\ (forall rsi, rsi <> NaN ->
          (Num.lt rsi App.thirty ->
           App.recommend close sma20 sma50 rsi
           = trend_part ++ App.oversold_message)
          /\ (Num.lt App.seventy rsi ->
              App.recommend close sma20 sma50 rsi
              = trend_part ++ App.overbought_message)
          /\ (~ Num.lt rsi App.thirty -> ~ Num.lt App.seventy rsi ->
              App.recommend close sma20 sma50 rsi
              = trend_part ++ App.neutral_message))
    /\ App.recommend close sma20 sma50 (Fin (Samples.q 299 10))
       = trend_part ++ App.oversold_message
    /\ App.recommend close sma20 sma50 (Fin (Num.of_Z 30))
       = trend_part ++ App.neutral_message
    /\ App.recommend close sma20 sma50 (Fin (Num.of_Z 70))
       = trend_part ++ App.neutral_message
    /\ App.recommend close sma20 sma50 (Fin (Samples.q 701 10))
       = trend_part ++ App.overbought_message.
Proof.
  exists (if Num.gtb close sma20 && Num.gtb sma20 sma50 then App.buy_message
          else if Num.ltb close sma20 && Num.ltb sma20 sma50
               then App.sell_message
               else App.hold_message).
  split; [|split; [|split; [|split; [|split]]]].
  - destruct (Num.gtb close sma20 && Num.gtb sma20 sma50);
      [|destruct (Num.ltb close sma20 && Num.ltb sma20 sma50)];
      rewrite !elem_of_cons; tauto.
  - intros rsi _. rewrite recommend_split. unfold Num.gtb.
    split; [|split].
    + intros H. apply ltb_lt in H. by rewrite H.
    + intros H. rewrite (above_seventy_not_below_thirty rsi H).
      apply ltb_lt in H. by rewrite H.
    + intros H1 H2. apply ltb_false in H1, H2. by rewrite H1, H2.
  - rewrite recommend_split. reflexivity.
  - rewrite recommend_split. reflexivity.
  - rewrite recommend_split. reflexivity.
  - rewrite recommend_split. reflexivity.
Qed.

Lemma rsi_rule_strict_witness :
  exists trend_part,
    App.recommend NaN NaN NaN (Fin (Num.of_Z 30))
    = trend_part ++ App.neutral_message.
Proof.
  destruct (rsi_rule_strict NaN NaN NaN) as (trend_part & _ & H & _).
  exists trend_part.
  apply (H (Fin (Num.of_Z 30))).
  - discriminate.
  - apply ltb_false. reflexivity.
  - apply ltb_false. reflexivity.
Defined.

(** C5, as the code has it.  An undefined ([nan]) close, SMA20 or SMA50
    makes the first sentence the Hold message, and an undefined RSI makes
    the second sentence the Neutral message; the recommendation never
    mentions the word indeterminate. *)
Theorem undefined_fields_give_hold_and_neutral (close sma20 sma50 rsi : num) :
  (close = NaN \/ sma20 = NaN \/ sma50 = NaN ->
   exists rsi_part,
     rsi_part ∈ [App.oversold_message; App.overbought_message;
                 App.neutral_message]
     /\ App.recommend close sma20 sma50 rsi = App.hold_message ++ rsi_part)
  /\ (rsi = NaN ->
      exists trend_part,
        trend_part ∈ [App.buy_message; App.sell_message; App.hold_message]
        /\ App.recommend close sma20 sma50 rsi
           = trend_part ++ App.neutral_message)
  /\ mentions "indeterminate" (App.recommend close sma20 sma50 rsi) = false.
Proof.
  split; [|split].
  - intros H. eexists. split; [|rewrite recommend_split; unfold Num.gtb].
    2:{ assert (E1 : Num.ltb sma20 close && Num.ltb sma50 sma20 = false).
        { destruct H as [-> | [-> | ->]]; rewrite ?ltb_nan_l, ?ltb_nan_r;
            rewrite ?andb_false_r; reflexivity. }
        assert (E2 : Num.ltb close sma20 && Num.ltb sma20 sma50 = false).
        { destruct H as [-> | [-> | ->]]; rewrite ?ltb_nan_l, ?ltb_nan_r;
            rewrite ?andb_false_r; reflexivity. }
        rewrite E1, E2. reflexivity. }
    destruct (Num.ltb rsi App.thirty); [|destruct (Num.ltb App.seventy rsi)];
      rewrite !elem_of_cons; tauto.
  - intros ->. eexists. split; [|rewrite recommend_split; reflexivity].
    destruct (Num.gtb close sma20 && Num.gtb sma20 sma50);
      [|destruct (Num.ltb close sma20 && Num.ltb sma20 sma50)];
      rewrite !elem_of_cons; tauto.
  - rewrite recommend_split.
    destruct (Num.gtb close sma20 && Num.gtb sma20 sma50);
      [|destruct (Num.ltb close sma20 && Num.ltb sma20 sma50)];
      (destruct (Num.ltb rsi App.thirty);
         [|destruct (Num.gtb rsi App.seventy)]); vm_compute; reflexivity.
Qed.

Lemma undefined_fields_give_hold_and_neutral_witness :
  exists rsi_part,
    App.recommend (Fin (Num.of_Z 100)) NaN NaN NaN
    = App.hold_message ++ rsi_part.
Proof.
  destruct (proj1 (undefined_fields_give_hold_and_neutral
                     (Fin (Num.of_Z 100)) NaN NaN NaN))
    as (rsi_part & _ & H).
  - right. left. reflexivity.
  - exists rsi_part. exact H.
Defined.

(** C5 as stated fails: with SMA20, SMA50 and RSI undefined the advisor
    emits the Hold and Neutral messages, and nothing about the result
    being indeterminate. *)
Lemma advisor_indeterminate_counterexample :
  App.recommend (Fin (Num.of_Z 100)) NaN NaN NaN
  = App.hold_message ++ App.neutral_message
  /\ mentions "indeterminate"
       (App.recommend (Fin (Num.of_Z 100)) NaN NaN NaN) = false.
Proof. split; vm_compute; reflexivity. Qed.

End AdvisorRSI.

(** ** The output of the script only grows *)

Section Appends.

Import Spec.

Lemma appends_ret {A} (a : A) : appends (ret a).
Proof. intros st. reflexivity. Qed.

Lemma appends_raise {A} (e : exn) : appends (@raise A e).
Proof. intros st. reflexivity. Qed.

Lemma appends_emit (e : event) : appends (emit e).
Proof. intros st. simpl. by apply prefix_app_r. Qed.

Lemma appends_bind {A B} (m : M A) (k : A -> M B) :
  appends m -> (forall a, appends (k a)) -> appends (bind m k).
Proof.
  intros Hm Hk st. unfold bind. specialize (Hm st).
  destruct (m st) as [[a|e] st'] eqn:E; simpl in *; [|exact Hm].
  etrans; [exact Hm|apply Hk].
Qed.

Lemma appends_from_option {A} (e : exn) (o : option A) :
  appends (from_option e o).
Proof. destruct o; [apply appends_ret|apply appends_raise]. Qed.

Lemma appends_alloc (df : DataFrame) : appends (alloc df).
Proof. intros st. reflexivity. Qed.

Lemma appends_read_frame (l : loc) : appends (read_frame l).
Proof. intros st. unfold read_frame. by destruct (frames st !! l). Qed.

Lemma appends_getitem (l : loc) (name : string) : appends (getitem l name).
Proof.
  apply appends_bind; [apply appends_read_frame|].
  intros df. apply appends_from_option.
Qed.

Lemma appends_setitem (l : loc) (name : string) (col : list num) :
  appends (setitem l name col).
Proof. intros st. unfold setitem. by destruct (frames st !! l). Qed.

Lemma appends_iloc_last (s : list num) : appends (iloc_last s).
Proof. apply appends_from_option. Qed.

Lemma appends_plot (l : loc) (y : list string) (title : string) :
  appends (plot l y title).
Proof.
  apply appends_bind; [apply appends_read_frame|]. intros df.
  destruct (forallb _ y); [apply appends_emit|apply appends_raise].
Qed.

Ltac appends_steps :=
  repeat first
    [ progress cbv zeta
    | apply appends_emit
    | apply appends_getitem
    | apply appends_setitem
    | apply appends_iloc_last
    | apply appends_plot
    | apply appends_from_option
    | apply appends_ret
    | apply appends_alloc
    | apply appends_read_frame
    | apply appends_bind; [|intros ?] ].

Lemma appends_moving_averages (l : loc) : appends (App.moving_averages l).
Proof. unfold App.moving_averages. appends_steps. Qed.

Lemma appends_relative_strength (l : loc) : appends (App.relative_strength l).
Proof. unfold App.relative_strength. appends_steps. Qed.

Lemma appends_analyse (l : loc) (selected : option string) :
  appends (App.analyse l selected).
Proof.
  unfold App.analyse.
  repeat first
    [ progress cbv zeta
    | apply appends_moving_averages
    | apply appends_relative_strength
    | apply appends_emit
    | apply appends_getitem
    | apply appends_iloc_last
    | apply appends_plot
    | apply appends_from_option
    | apply appends_bind; [|intros ?] ].
Qed.

(** What follows the call of the provider in the script. *)
Lemma appends_after_fetch (fetched : M (option loc)) (selected : option string) :
  appends fetched ->
  appends (bind fetched (fun data_df =>
    match data_df with
    | Some l =>
        bind (read_frame l) (fun df =>
          if negb (df_empty df) then App.analyse l selected
          else emit (StError App.no_data_message))
    | None => emit (StError App.no_data_message)
    end)).
Proof.
  intros H. apply appends_bind; [exact H|]. intros [l|]; [|apply appends_emit].
  apply appends_bind; [apply appends_read_frame|]. intros df.
  destruct (negb (df_empty df)); [apply appends_analyse|apply appends_emit].
Qed.

End Appends.

(** ** The date guard in front of the fetch *)

Section DateGuard.

Import Spec.

Lemma date_ltb_lt (a b : date) : date_ltb a b = true <-> date_lt a b.
Proof.
  unfold date_ltb, date_lt.
  repeat first [rewrite orb_true_iff | rewrite andb_true_iff].
  rewrite !Nat.ltb_lt, !Nat.eqb_eq. reflexivity.
Qed.

Lemma date_geb_not_lt (a b : date) : date_geb a b = true <-> ~ date_lt a b.
Proof.
  unfold date_geb. rewrite <- date_ltb_lt.
  destruct (date_ltb a b); simpl; split; congruence.
Qed.

Lemma date_lt_dec (a b : date) : date_lt a b \/ ~ date_lt a b.
Proof.
  destruct (date_ltb a b) eqn:E.
  - left. by apply date_ltb_lt.
  - right. intros H. apply date_ltb_lt in H. congruence.
Qed.

(** The symbols offered in the picker. *)
Lemma get_nse_symbols_run (w : world) (st : state) :
  exists symbols shown,
    App.get_nse_symbols w st
    = (Ok symbols, State (frames st) (out st ++ shown))
    /\ (forall s a b, TickerHistory s a b ∉ shown).
Proof.
  unfold App.get_nse_symbols, bind, emit. simpl.
  destruct (App.nse_symbols_try w) as [symbols|]; simpl.
  - exists symbols, [ReadHtml "https://en.wikipedia.org/wiki/NIFTY_50"].
    split; [reflexivity|]. intros s a b Hin.
    apply elem_of_cons in Hin as [Hin|Hin]; [discriminate|].
    by apply elem_of_nil in Hin.
  - exists App.default_symbols,
      [ReadHtml "https://en.wikipedia.org/wiki/NIFTY_50";
       StError "Failed to fetch stock symbols. Using default list."].
    split; [by rewrite <- app_assoc|]. intros s a b Hin.
    repeat (apply elem_of_cons in Hin as [Hin|Hin]; [discriminate|]).
    by apply elem_of_nil in Hin.
Qed.

(** The script with an invalid date range: it stops at the validation
    error. *)
Lemma run_invalid_range (w : world) (symbols : list string) (shown : list event) :
  App.get_nse_symbols w
    (State ∅ [StTitle "Advanced Stock Price Analysis App";
               StWrite App.intro_text])
  = (Ok symbols,
     State ∅ ([StTitle "Advanced Stock Price Analysis App";
                StWrite App.intro_text] ++ shown)) ->
  date_geb (start_input w) (end_input w) = true ->
  App.run w
  = (Ok tt,
     State ∅
       ([StTitle "Advanced Stock Price Analysis App";
         StWrite App.intro_text] ++ shown
        ++ [StSelectbox "Select a stock symbol" symbols;
            StDateInput "Start date"; StDateInput "End date";
            StError App.date_error_message])).
Proof.
  intros Hrun Hge. unfold App.run, App.main.
  unfold bind at 1. cbn [emit frames out app].
  unfold bind at 1. cbn [emit frames out app].
  unfold bind at 1. rewrite Hrun.
  unfold bind, emit. cbn [frames out]. rewrite Hge. cbn [frames out].
  rewrite <- !app_assoc. reflexivity.
Qed.

(** The script with a valid date range: the provider is called for the
    symbol picked among those offered. *)
Lemma run_valid_range (w : world) (symbols : list string) (shown : list event) :
  App.get_nse_symbols w
    (State ∅ [StTitle "Advanced Stock Price Analysis App";
               StWrite App.intro_text])
  = (Ok symbols,
     State ∅ ([StTitle "Advanced Stock Price Analysis App";
                StWrite App.intro_text] ++ shown)) ->
  date_geb (start_input w) (end_input w) = false ->
  exists rest,
    out (snd (App.run w))
    = ([StTitle "Advanced Stock Price Analysis App"; StWrite App.intro_text]
       ++ shown
       ++ [StSelectbox "Select a stock symbol" symbols;
           StDateInput "Start date"; StDateInput "End date";
           StSpinner "Fetching data...";
           TickerHistory (symbols !! picked w) (start_input w) (end_input w)]
       ++ rest)%list.
Proof.
  intros Hrun Hlt. unfold App.run, App.main.
  unfold bind at 1. cbn [emit frames out app].
  unfold bind at 1. cbn [emit frames out app].
  unfold bind at 1. rewrite Hrun.
  unfold bind at 1. cbn [emit frames out].
  unfold bind at 1. cbn [emit frames out].
  unfold bind at 1. cbn [emit frames out].
  rewrite Hlt.
  unfold bind at 1. cbn [emit frames out].
  unfold App.fetch_stock_data.
  match goal with
  | |- context [bind (bind (emit ?e) ?k1) ?k2 ?st] =>
      change (bind (bind (emit e) k1) k2 st)
        with (bind (k1 tt) k2 (State (frames st) (out st ++ [e])));
      assert (Hk : appends (k1 tt));
      [|pose proof (appends_after_fetch (k1 tt) (symbols !! picked w) Hk)
          as Happ]
  end.
  - destruct (history w (symbols !! picked w) (start_input w) (end_input w)).
    + apply appends_bind; [apply appends_alloc|intros l; apply appends_ret].
    + apply appends_bind; [apply appends_emit|intros _; apply appends_ret].
  - match goal with
    | |- context [out (snd (?m ?st))] => destruct (Happ st) as [rest Hrest]
    end.
    exists rest. rewrite Hrest. cbn [out frames]. f_equal.
    rewrite <- !app_assoc. reflexivity.
Qed.

End DateGuard.

(** ** The claims about the script *)

Section ScriptClaims.

Import Spec.

(** C6.  When the start date is not before the end date, the script ends
    normally on the validation error message and the provider is never
    called; a call of the provider appears in a run only when the start
    date is before the end date, and then it does appear. *)
Theorem invalid_date_range_never_fetches (w : world) :
  (~ date_lt (start_input w) (end_input w) ->
   fst (App.run w) = Ok tt
   /\ last (out (snd (App.run w))) = Some (StError App.date_error_message)
   /\ forall s a b, TickerHistory s a b ∉ out (snd (App.run w)))
  /\ (forall s a b, TickerHistory s a b ∈ out (snd (App.run w)) ->
      date_lt (start_input w) (end_input w))
  /\ (date_lt (start_input w) (end_input w) ->
      exists selected,
        TickerHistory selected (start_input w) (end_input w)
          ∈ out (snd (App.run w))).
Proof.
  assert (Hinvalid : ~ date_lt (start_input w) (end_input w) ->
    fst (App.run w) = Ok tt
    /\ last (out (snd (App.run w))) = Some (StError App.date_error_message)
    /\ forall s a b, TickerHistory s a b ∉ out (snd (App.run w))).
  { intros Hge. apply date_geb_not_lt in Hge.
    destruct (get_nse_symbols_run w
                (State ∅ [StTitle "Advanced Stock Price Analysis App";
                           StWrite App.intro_text]))
      as (symbols & shown & Hrun & Hshown).
    rewrite (run_invalid_range w symbols shown Hrun Hge).
    cbn [fst snd out]. split; [reflexivity|split].
    - rewrite !app_assoc, last_app. reflexivity.
    - intros s a b Hin. rewrite !elem_of_app in Hin.
      destruct Hin as [Hin|[Hin|Hin]].
      + repeat (apply elem_of_cons in Hin as [Hin|Hin]; [discriminate|]).
        by apply elem_of_nil in Hin.
      + exact (Hshown s a b Hin).
      + repeat (apply elem_of_cons in Hin as [Hin|Hin]; [discriminate|]).
        by apply elem_of_nil in Hin. }
  split; [exact Hinvalid|split].
  - intros s a b Hin. destruct (date_lt_dec (start_input w) (end_input w))
      as [Hlt|Hge]; [exact Hlt|].
    destruct (Hinvalid Hge) as (_ & _ & Hnot). by destruct (Hnot s a b).
  - intros Hlt.
    destruct (get_nse_symbols_run w
                (State ∅ [StTitle "Advanced Stock Price Analysis App";
                           StWrite App.intro_text]))
      as (symbols & shown & Hrun & _).
    destruct (run_valid_range w symbols shown Hrun) as [rest Hout].
    + apply date_ltb_lt in Hlt. unfold date_geb. by rewrite Hlt.
    + exists (symbols !! picked w). rewrite Hout.
      rewrite !elem_of_app. right. right. left.
      rewrite !elem_of_cons. tauto.
Qed.

Lemma invalid_date_range_never_fetches_witness :
  fst (App.run Samples.backwards_world) = Ok tt
  /\ last (out (snd (App.run Samples.backwards_world)))
     = Some (StError App.date_error_message)
  /\ forall s a b,
       TickerHistory s a b ∉ out (snd (App.run Samples.backwards_world)).
Proof.
  apply (proj1 (invalid_date_range_never_fetches Samples.backwards_world)).
  apply date_geb_not_lt. reflexivity.
Defined.

End ScriptClaims.

Section CatalogClaims.

Import Spec.

Lemma read_html_failed_catalog_fails (w : world) :
  read_html w = Failed -> catalog_fails w.
Proof. intros H. unfold catalog_fails, App.nse_symbols_try. by rewrite H. Qed.

Lemma get_nse_symbols_fallback (w : world) (st : state) :
  catalog_fails w ->
  App.get_nse_symbols w st
  = (Ok App.default_symbols,
     State (frames st)
       (out st ++ [ReadHtml "https://en.wikipedia.org/wiki/NIFTY_50";
                   StError "Failed to fetch stock symbols. Using default list."])).
Proof.
  intros H. unfold App.get_nse_symbols, bind, emit. simpl. rewrite H. simpl.
  by rewrite <- app_assoc.
Qed.

(** C9.  Whenever the retrieval of the symbol catalog fails,
    [get_nse_symbols] shows one error message and returns the fixed list
    of 10 distinct symbols, each ending in [.NS]; the script goes on: the
    picker offers that list, and with a valid date range the provider is
    called for the symbol picked from it. *)
Theorem catalog_failure_falls_back (w : world) :
  catalog_fails w ->
  (forall st,
     App.get_nse_symbols w st
     = (Ok App.default_symbols,
        State (frames st)
          (out st ++ [ReadHtml "https://en.wikipedia.org/wiki/NIFTY_50";
                      StError "Failed to fetch stock symbols. Using default list."])))
  /\ (10 <= length App.default_symbols)%nat
  /\ NoDup App.default_symbols
  /\ (exists names, Forall (fun name => name <> "") names
                    /\ App.default_symbols = (fun name => name ++ ".NS") <$> names)
  /\ StSelectbox "Select a stock symbol" App.default_symbols
       ∈ out (snd (App.run w))
  /\ (date_lt (start_input w) (end_input w) ->
      TickerHistory (App.default_symbols !! picked w)
        (start_input w) (end_input w) ∈ out (snd (App.run w))).
Proof.
  intros Hfail.
  split; [intros st; by apply get_nse_symbols_fallback|].
  split; [simpl; lia|].
  split; [apply (bool_decide_unpack (NoDup App.default_symbols));
          vm_compute; exact I|].
  split.
  { exists ["HDFCBANK"; "RELIANCE"; "TCS"; "INFY"; "WIPRO"; "ICICIBANK";
            "SBIN"; "HINDUNILVR"; "HDFC"; "BHARTIARTL"].
    split; [|reflexivity]. repeat (apply Forall_cons; split; [discriminate|]).
    apply Forall_nil_2. }
  pose proof (get_nse_symbols_fallback w
                (State ∅ [StTitle "Advanced Stock Price Analysis App";
                           StWrite App.intro_text]) Hfail) as Hrun.
  cbn [frames out] in Hrun.
  assert (Hsel : StSelectbox "Select a stock symbol" App.default_symbols
                   ∈ out (snd (App.run w))).
  { destruct (date_geb (start_input w) (end_input w)) eqn:Hge.
    - rewrite (run_invalid_range w _ _ Hrun Hge). cbn [snd out].
      rewrite !elem_of_app, !elem_of_cons. tauto.
    - destruct (run_valid_range w _ _ Hrun Hge) as [rest ->].
      rewrite !elem_of_app, !elem_of_cons. tauto. }
  split; [exact Hsel|].
  intros Hlt.
  destruct (run_valid_range w _ _ Hrun) as [rest ->].
  - apply date_ltb_lt in Hlt. unfold date_geb. by rewrite Hlt.
  - rewrite !elem_of_app, !elem_of_cons. tauto.
Qed.

Lemma catalog_failure_falls_back_witness :
  StSelectbox "Select a stock symbol" App.default_symbols
    ∈ out (snd (App.run Samples.short_world))
  /\ TickerHistory (Some "HDFCBANK.NS") (Date 2014 6 20) (Date 2024 6 21)
       ∈ out (snd (App.run Samples.short_world)).
Proof.
  assert (Hfail : catalog_fails Samples.short_world) by reflexivity.
  destruct (catalog_failure_falls_back Samples.short_world Hfail)
    as (_ & _ & _ & _ & Hsel & Hfetch).
  split; [exact Hsel|]. apply Hfetch.
  apply date_ltb_lt. reflexivity.
Defined.

End CatalogClaims.

(** ** The indicator stage and the fetched frame *)

Section FrameClaims.

Import Spec.

(** C7, as the code has it.  The indicator stage writes the columns
    [SMA20], [SMA50], [SMA100] and [RSI] into the fetched frame object
    itself; the index and every other column of that frame keep their
    values, no other object of the store is written or created, and
    nothing is shown. *)
Theorem indicators_written_into_fetched_frame (l : loc) (st : state)
    (df : DataFrame) (close : list num) :
  frames st !! l = Some df ->
  columns df !! "Close" = Some close ->
  exists df',
    indicator_stage l st = (Ok tt, State (<[l := df']> (frames st)) (out st))
    /\ index df' = index df
    /\ (forall name, name ∉ derived_columns ->
                     columns df' !! name = columns df !! name)
    /\ columns df' !! "SMA20" = Some (Series.rolling_mean 20 close)
    /\ columns df' !! "SMA50" = Some (Series.rolling_mean 50 close)
    /\ columns df' !! "SMA100" = Some (Series.rolling_mean 100 close)
    /\ columns df' !! "RSI" = Some (App.rsi_series close).
Proof.
  intros Hl Hc. unfold indicator_stage.
  rewrite (bind_ok _ _ _ _ _ (moving_averages_run l st df close Hl Hc)).
  set (df1 := Frame (index df) _).
  assert (Hl1 : frames (State (<[l := df1]> (frames st)) (out st)) !! l
                = Some df1) by apply lookup_insert_eq.
  assert (Hc1 : columns df1 !! "Close" = Some close).
  { unfold df1. cbn [columns]. by rewrite !lookup_insert_ne. }
  rewrite (relative_strength_run l _ df1 close Hl1 Hc1).
  cbn [frames out]. rewrite insert_insert_eq.
  eexists. split; [reflexivity|]. cbn [index columns df1].
  split; [reflexivity|]. split.
  - intros name Hname. unfold derived_columns in Hname.
    rewrite !not_elem_of_cons in Hname.
    destruct Hname as (H1 & H2 & H3 & H4 & _).
    by rewrite !lookup_insert_ne.
  - split; [|split; [|split]].
    + do 3 (rewrite lookup_insert_ne by done). apply lookup_insert_eq.
    + do 2 (rewrite lookup_insert_ne by done). apply lookup_insert_eq.
    + rewrite lookup_insert_ne by done. apply lookup_insert_eq.
    + apply lookup_insert_eq.
Qed.

Lemma indicators_written_into_fetched_frame_witness :
  exists df',
    indicator_stage 0 (State {[ 0%nat := Samples.short_frame ]} [])
    = (Ok tt, State (<[0%nat := df']> {[ 0%nat := Samples.short_frame ]}) [])
    /\ columns df' !! "Volume" = columns Samples.short_frame !! "Volume"
    /\ columns df' !! "RSI" = Some [NaN; NaN].
Proof.
  destruct (indicators_written_into_fetched_frame 0
              (State {[ 0%nat := Samples.short_frame ]} [])
              Samples.short_frame
              (Fin <$> Samples.closes_of [11; 12]%Z))
    as (df' & Hrun & _ & Hkeep & _ & _ & _ & Hrsi).
  - reflexivity.
  - reflexivity.
  - exists df'. split; [exact Hrun|]. split; [|exact Hrsi].
    apply Hkeep. unfold derived_columns. rewrite !not_elem_of_cons.
    repeat split; try discriminate. apply not_elem_of_nil.
Defined.

(** C7 as stated fails: after the stage the frame object that was fetched
    is not what it was, both when the stage is run on its own and in a
    whole run of the script. *)
Lemma indicators_mutate_frame_counterexample :
  fst (indicator_stage 0 (State {[ 0%nat := Samples.short_frame ]} []))
  = Ok tt
  /\ frames (snd (indicator_stage 0
                    (State {[ 0%nat := Samples.short_frame ]} []))) !! 0%nat
     <> Some Samples.short_frame
  /\ fst (App.run Samples.short_world) = Ok tt
  /\ (exists df', frames (snd (App.run Samples.short_world)) !! 0%nat = Some df'
                  /\ columns df' !! "RSI" = Some [NaN; NaN]
                  /\ columns Samples.short_frame !! "RSI" = None).
Proof.
  split; [vm_compute; reflexivity|]. split.
  - intros H.
    apply (f_equal (fun o => o ≫= fun df => columns df !! "RSI")) in H.
    vm_compute in H. discriminate.
  - split; [vm_compute; reflexivity|].
    eexists. split; [vm_compute; reflexivity|].
    split; vm_compute; reflexivity.
Qed.

End FrameClaims.

(** * Further properties of the code *)

(** ** The rolling mean on any column *)

Section RollingMore.

Local Open Scope Qc_scope.
Import Spec.

Lemma window_lookup_eq {A} (n i : nat) (l : list A) (j : nat) :
  window n i l !! j
  = if decide (j < Nat.min n (S i))%nat then l !! (S i - n + j)%nat else None.
Proof.
  unfold window, trailing. rewrite lookup_take. case_decide; [|reflexivity].
  apply lookup_drop.
Qed.

(** The window that ends at bar [i] does not see the bars after [i]. *)
Lemma window_take {A} (n i k : nat) (l : list A) :
  (i < k)%nat -> window n i (take k l) = window n i l.
Proof.
  intros Hik. apply list_eq. intros j. rewrite !window_lookup_eq.
  case_decide; [|reflexivity]. apply lookup_take_lt. lia.
Qed.

Lemma finite_count_le (l : list num) : (finite_count l <= length l)%nat.
Proof. induction l as [|[] l IH]; simpl; lia. Qed.

(** The rolling mean of the first [k] bars is the first [k] values of the
    rolling mean of the whole column, whatever the column holds. *)
Lemma rolling_mean_take (n k : nat) (values : list num) :
  (1 <= n)%nat ->
  take k (Series.rolling_mean n values) = Series.rolling_mean n (take k values).
Proof.
  intros Hn. apply list_eq. intros i. rewrite lookup_take.
  case_decide as Hik.
  - destruct (decide (i < length values)%nat) as [Hi|Hi].
    + rewrite !rolling_mean_lookup by (rewrite ?length_take; lia).
      by rewrite window_take.
    + rewrite !(proj2 (lookup_ge_None _ _));
        rewrite ?rolling_mean_length, ?length_take; (reflexivity || lia).
  - symmetry. apply lookup_ge_None.
    rewrite rolling_mean_length, length_take. lia.
Qed.

(** Before the window is full the rolling mean is undefined, whatever
    the column holds. *)
Lemma rolling_mean_warm_up (n i : nat) (values : list num) :
  (S i < n)%nat -> (i < length values)%nat ->
  Series.rolling_mean n values !! i = Some NaN.
Proof.
  intros Hn Hi. rewrite rolling_mean_lookup by (done || lia). f_equal.
  unfold Series.calc_mean, window_state. cbn [Series.nobs].
  assert (Hc : (finite_count (window n i values) <= S i)%nat).
  { etrans; [apply finite_count_le|]. rewrite window_length by done. lia. }
  destruct (Nat.leb_spec n (finite_count (window n i values))); [lia|].
  reflexivity.
Qed.

Lemma finite_count_missing (l : list num) (v : num) :
  v ∈ l -> Num.is_fin v = false -> (finite_count l < length l)%nat.
Proof.
  intros Hin Hv. induction l as [|x l IH]; [by apply elem_of_nil in Hin|].
  apply elem_of_cons in Hin as [<-|Hin].
  - pose proof (finite_count_le l). destruct v; simpl in *;
      try discriminate; lia.
  - specialize (IH Hin). destruct x; simpl; lia.
Qed.

(** A missing or infinite value in the window makes the rolling mean
    undefined: one [nan] in a column costs the [n] values from its bar
    on. *)
Theorem rolling_mean_missing_value (n i j : nat) (values : list num) (v : num) :
  (1 <= n)%nat -> (i < length values)%nat ->
  (j <= i < j + n)%nat ->
  values !! j = Some v -> Num.is_fin v = false ->
  Series.rolling_mean n values !! i = Some NaN.
Proof.
  intros Hn Hi Hj Hv Hfin. rewrite rolling_mean_lookup by done. f_equal.
  assert (Hin : v ∈ window n i values).
  { apply list_elem_of_lookup. exists (j - (S i - n))%nat.
    rewrite window_lookup_eq. case_decide; [|lia].
    rewrite <- Hv. f_equal. lia. }
  pose proof (finite_count_missing _ _ Hin Hfin) as Hlt.
  rewrite window_length in Hlt by done.
  unfold Series.calc_mean, window_state. cbn [Series.nobs].
  destruct (Nat.leb_spec n (finite_count (window n i values))); [lia|].
  reflexivity.
Qed.

Lemma rolling_mean_missing_value_witness :
  Series.rolling_mean 2
    [Fin (Num.of_Z 1); NaN; Fin (Num.of_Z 3); Fin (Num.of_Z 5)] !! 2%nat
  = Some NaN.
Proof.
  apply (rolling_mean_missing_value 2 2 1 _ NaN);
    [lia | simpl; lia | lia | reflexivity | reflexivity].
Defined.

End RollingMore.

(** ** The rolling mean on binary64 floats: what the loop counts *)

Section Binary64Loop.

Import Spec Binary64.

Lemma obs_count_app (l1 l2 : list float) :
  obs_count (l1 ++ l2) = (obs_count l1 + obs_count l2)%nat.
Proof.
  induction l1 as [|v l1 IH]; [reflexivity|].
  cbn [obs_count app]. rewrite IH. by destruct (notnan v).
Qed.

Lemma obs_count_le (l : list float) : (obs_count l <= length l)%nat.
Proof.
  induction l as [|v l IH]; [reflexivity|].
  cbn [obs_count length]. destruct (notnan v); lia.
Qed.

Lemma obs_count_all (l : list float) :
  Forall (fun v => notnan v = true) l -> obs_count l = length l.
Proof.
  induction 1 as [|v l Hv _ IH]; [reflexivity|].
  cbn [obs_count length]. by rewrite Hv, IH.
Qed.

Lemma nobs_add_mean (v : float) (st : roll_state) :
  nobs (add_mean v st) = (nobs st + obs_count [v])%nat.
Proof.
  unfold add_mean. cbn [obs_count]. destruct (notnan v); cbn [nobs]; lia.
Qed.

Lemma nobs_remove_mean (v : float) (st : roll_state) :
  nobs (remove_mean v st) = (nobs st - obs_count [v])%nat.
Proof.
  unfold remove_mean. cbn [obs_count]. destruct (notnan v); cbn [nobs]; lia.
Qed.

(** A value that leaves the window changes neither the run of equal
    values nor the previous value. *)
Lemma same_remove_mean (v : float) (st : roll_state) :
  num_consecutive_same_value (remove_mean v st) = num_consecutive_same_value st
  /\ prev_value (remove_mean v st) = prev_value st.
Proof. unfold remove_mean. by destruct (notnan v). Qed.

Lemma tracks_init (n : nat) (values : list float) :
  tracks n values 0 (roll_init values).
Proof.
  split.
  - unfold trailing. by rewrite Nat.min_0_r.
  - intros m c Hm. lia.
Qed.

Lemma tracks_step (n i : nat) (values : list float) (v : float)
    (st : roll_state) :
  (1 <= n)%nat -> values !! i = Some v ->
  tracks n values i st -> tracks n values (S i) (step n values i v st).
Proof.
  intros Hn Hv [Hnobs Hsame]. unfold step. split.
  - rewrite nobs_add_mean. unfold trailing in *.
    destruct (Nat.leb_spec n i) as [Hle|Hlt].
    + assert (Hlen : (i < length values)%nat) by (eapply lookup_lt_Some; eauto).
      destruct (lookup_lt_is_Some_2 values (i - n)%nat) as [old Hold]; [lia|].
      rewrite Hold, nobs_remove_mean, Hnobs.
      replace (Nat.min n i) with (S (n - 1)) by lia.
      replace (Nat.min n (S i)) with (S (n - 1)) by lia.
      replace (S i - n)%nat with (S (i - n)) by lia.
      rewrite (drop_S _ _ _ Hold). cbn [take].
      assert (Hlast : drop (S (i - n)) values !! (n - 1)%nat = Some v).
      { rewrite lookup_drop, <- Hv. f_equal. lia. }
      rewrite (take_S_r _ _ _ Hlast), obs_count_app.
      cbn [obs_count]. destruct (notnan old); lia.
    + rewrite Hnobs.
      replace (Nat.min n i) with i by lia.
      replace (Nat.min n (S i)) with (S i) by lia.
      replace (i - n)%nat with 0%nat by lia.
      replace (S i - n)%nat with 0%nat by lia.
      rewrite !drop_0, (take_S_r _ _ _ Hv), obs_count_app. reflexivity.
  - intros m c Hm Hc Hrun.
    assert (E : v = c).
    { specialize (Hrun i). rewrite Hv in Hrun. by injection Hrun; [|lia]. }
    subst v.
    set (st1 := if (n <=? i)%nat then _ else st).
    assert (Hst1 : num_consecutive_same_value st1 = num_consecutive_same_value st
                   /\ prev_value st1 = prev_value st).
    { unfold st1. destruct (n <=? i)%nat; [|done].
      destruct (values !! (i - n)%nat); [apply same_remove_mean|done]. }
    destruct Hst1 as [Hnum Hprev].
    unfold add_mean. rewrite Hc.
    cbn [num_consecutive_same_value prev_value]. split; [|reflexivity].
    destruct (decide (m = 1)%nat) as [->|Hm1].
    + destruct (PrimFloat.eqb c (prev_value st1)); lia.
    + destruct (Hsame (m - 1)%nat c) as [Hge Hpc]; [lia|done| |].
      { intros j Hj. apply Hrun. lia. }
      rewrite Hprev, Hpc. unfold notnan in Hc. rewrite Hc, Hnum. lia.
Qed.

Lemma roll_loop_tracks (n minp : nat) (values : list float) :
  (1 <= n)%nat ->
  forall (rest : list float) (i : nat) (st : roll_state) (k : nat),
    drop i values = rest ->
    tracks n values i st ->
    (k < length rest)%nat ->
    exists st',
      tracks n values (S (i + k)) st'
      /\ roll_loop n minp values i rest st !! k = Some (calc_mean minp st').
Proof.
  intros Hn rest.
  induction rest as [|v rest IH]; intros i st k Hrest Hst Hk;
    [simpl in Hk; lia|].
  assert (Hv : values !! i = Some v).
  { rewrite <- (Nat.add_0_r i), <- lookup_drop, Hrest. reflexivity. }
  assert (Hrest' : drop (S i) values = rest).
  { rewrite (drop_S _ _ _ Hv) in Hrest. congruence. }
  pose proof (tracks_step n i values v st Hn Hv Hst) as Hstep.
  cbn [roll_loop]. fold (step n values i v st).
  destruct k as [|k].
  - exists (step n values i v st). rewrite Nat.add_0_r. by split.
  - destruct (IH (S i) _ k Hrest' Hstep) as (st' & Htr & Hlk);
      [simpl in Hk; lia|].
    exists st'. split; [|exact Hlk].
    by replace (S (i + S k)) with (S (S i + k)) by lia.
Qed.

Lemma float_roll_loop_length (n minp : nat) (values rest : list float)
    (i : nat) (st : roll_state) :
  length (roll_loop n minp values i rest st) = length rest.
Proof.
  revert i st. induction rest as [|v rest IH]; intros i st; simpl; auto.
Qed.

(** The binary64 rolling mean has one value per bar. *)
Lemma float_rolling_mean_length (n : nat) (values : list float) :
  length (rolling_mean n values) = length values.
Proof.
  unfold rolling_mean. cbv zeta. rewrite float_roll_loop_length.
  unfold prep_values. by rewrite length_fmap.
Qed.

(** At every bar the value is computed from a state that tracks the
    window that ends there. *)
Lemma rolling_mean_tracks (n i : nat) (values : list float) :
  (1 <= n)%nat -> (i < length values)%nat ->
  exists st,
    tracks n (prep_values values) (S i) st
    /\ rolling_mean n values !! i = Some (calc_mean n st).
Proof.
  intros Hn Hi. unfold rolling_mean. cbv zeta.
  apply (roll_loop_tracks n n (prep_values values) Hn (prep_values values) 0 _ i).
  - reflexivity.
  - apply tracks_init.
  - unfold prep_values. by rewrite length_fmap.
Qed.

Lemma trailing_length {A} (n i : nat) (l : list A) :
  (i <= length l)%nat -> length (trailing n i l) = Nat.min n i.
Proof.
  intros Hi. unfold trailing. rewrite length_take, length_drop. lia.
Qed.

(** Before the window is full the binary64 rolling mean is [nan],
    whatever the column holds. *)
Lemma float_rolling_mean_warm_up (n i : nat) (values : list float) :
  (S i < n)%nat -> (i < length values)%nat ->
  rolling_mean n values !! i = Some nan.
Proof.
  intros Hin Hi.
  destruct (rolling_mean_tracks n i values) as (st & [Hnobs _] & ->);
    [lia|done|].
  f_equal. unfold calc_mean.
  assert (Hc : (nobs st <= S i)%nat).
  { rewrite Hnobs. etrans; [apply obs_count_le|].
    rewrite trailing_length; [lia|].
    unfold prep_values. rewrite length_fmap. lia. }
  destruct (Nat.leb_spec n (nobs st)); [lia|]. reflexivity.
Qed.

Lemma prep_finite (values : list float) (j : nat) (c : float) :
  values !! j = Some c -> is_infinity c = false ->
  prep_values values !! j = Some c.
Proof.
  intros Hj Hc. unfold prep_values. rewrite list_lookup_fmap, Hj.
  change (Some (if is_infinity c then nan else c) = Some c). by rewrite Hc.
Qed.

Lemma is_finite_spec (c : float) :
  is_finite c = true -> notnan c = true /\ is_infinity c = false.
Proof.
  unfold is_finite, is_nan, notnan.
  destruct (PrimFloat.eqb c c), (is_infinity c); cbn; intros H;
    (done || discriminate).
Qed.

(** A full window of one and the same finite value: the binary64 rolling
    mean is that value, bit for bit, whatever came before the window. *)
Lemma float_rolling_mean_flat_window (n i : nat) (values : list float)
    (c : float) :
  (1 <= n)%nat -> (n - 1 <= i)%nat -> (i < length values)%nat ->
  is_finite c = true ->
  (forall j, (S i - n <= j <= i)%nat -> values !! j = Some c) ->
  rolling_mean n values !! i = Some c.
Proof.
  intros Hn Hin Hi Hfin Hwin.
  destruct (is_finite_spec c Hfin) as [Hc Hinf].
  destruct (rolling_mean_tracks n i values Hn Hi) as (st & [Hnobs Hsame] & ->).
  f_equal.
  assert (Hall : Forall (fun v => notnan v = true)
                   (trailing n (S i) (prep_values values))).
  { apply Forall_forall. intros v Hv. apply list_elem_of_lookup in Hv as [k Hk].
    unfold trailing in Hk. apply lookup_take_Some in Hk as [Hk Hlt].
    rewrite lookup_drop in Hk.
    rewrite (prep_finite values _ c) in Hk; [congruence| |done].
    apply Hwin. lia. }
  assert (Hn' : nobs st = n).
  { rewrite Hnobs, (obs_count_all _ Hall), trailing_length; [lia|].
    unfold prep_values. rewrite length_fmap. lia. }
  destruct (Hsame n c) as [Hge Hprev]; [lia|done| |].
  { intros j Hj. apply prep_finite; [apply Hwin; lia|done]. }
  unfold calc_mean. rewrite Hn'.
  destruct (Nat.leb_spec n n); [|lia].
  destruct (Nat.ltb_spec 0 n); [|lia]. cbn [andb]. cbv zeta.
  destruct (Nat.leb_spec n (num_consecutive_same_value st)); [|lia].
  exact Hprev.
Qed.

End Binary64Loop.

(** ** The moving-average columns *)

Section MovingAverageColumns.

Import Spec.




End MovingAverageColumns.

(** ** The RSI formula and the zero mean loss *)

Section RSIFormulaClaim.

Local Open Scope Qc_scope.
Import Spec.

(** The same bar by bar on binary64 floats. *)
Lemma float_diff_length (s : list float) :
  length (Binary64.diff s) = length s.
Proof.
  destruct s as [|x t]; [reflexivity|]. cbn [Binary64.diff length].
  rewrite length_zip_with. cbn [length]. lia.
Qed.

Lemma float_rsi_series_pointwise (close : list float) (i : nat) :
  (i < length close)%nat ->
  exists gain loss,
    Binary64.rsi_gain close !! i = Some gain
    /\ Binary64.rsi_loss close !! i = Some loss
    /\ Binary64.rsi_series close !! i = Some (IEEE.rsi gain loss).
Proof.
  intros Hi.
  destruct (lookup_lt_is_Some_2 (Binary64.rsi_gain close) i) as [gain Hg].
  { unfold Binary64.rsi_gain. cbv zeta.
    rewrite float_rolling_mean_length, length_fmap, float_diff_length. lia. }
  destruct (lookup_lt_is_Some_2 (Binary64.rsi_loss close) i) as [loss Hl].
  { unfold Binary64.rsi_loss. cbv zeta.
    rewrite float_rolling_mean_length, length_fmap, float_diff_length. lia. }
  exists gain, loss. split; [exact Hg|split; [exact Hl|]].
  unfold Binary64.rsi_series. cbv zeta.
  rewrite list_lookup_fmap, lookup_zip_with, Hg, Hl. reflexivity.
Qed.



End RSIFormulaClaim.


(** ** The RSI column: what it depends on *)

Section RSIMore.

Local Open Scope Qc_scope.
Import Spec.

Lemma diff_take (k : nat) (s : list num) :
  take k (Series.diff s) = Series.diff (take k s).
Proof.
  destruct s as [|x t]; [by destruct k|]. destruct k as [|k]; [reflexivity|].
  cbn [Series.diff take]. f_equal. rewrite zip_with_take.
  change (x :: take k t) with (take (S k) (x :: t)).
  rewrite (zip_with_take_r' _ (S k) (take k t) (x :: t))
    by (rewrite length_take; cbn [length]; lia).
  apply zip_with_take_r'. rewrite length_take. lia.
Qed.

Lemma rsi_series_take (k : nat) (close : list num) :
  take k (App.rsi_series close) = App.rsi_series (take k close).
Proof.
  unfold App.rsi_series, App.rsi_gain, App.rsi_loss. cbv zeta.
  rewrite !where_gt, !where_lt. unfold Series.neg.
  unfold App.rsi_of_rs, Series.rsub, Series.rdiv, Series.radd, Series.div.
  rewrite <- !fmap_take, zip_with_take.
  rewrite !rolling_mean_take by lia.
  rewrite <- !diff_take, !fmap_take. reflexivity.
Qed.

(** No look-ahead: the indicator values of the first [k] bars are the
    same whether or not later bars are in the column; this holds for the
    three moving averages and for the RSI, whatever the column holds. *)
Theorem indicators_no_look_ahead (k : nat) (close : list num) :
  take k (Series.rolling_mean 20 close) = Series.rolling_mean 20 (take k close)
  /\ take k (Series.rolling_mean 50 close)
     = Series.rolling_mean 50 (take k close)
  /\ take k (Series.rolling_mean 100 close)
     = Series.rolling_mean 100 (take k close)
  /\ take k (App.rsi_series close) = App.rsi_series (take k close).
Proof.
  repeat split; try (apply rolling_mean_take; lia). apply rsi_series_take.
Qed.

(** The RSI column is a function of the gains and losses of the bars. *)
Lemma rsi_series_same_bars (a b : list Qc) :
  bar_gains a = bar_gains b -> bar_losses a = bar_losses b ->
  App.rsi_series (column a) = App.rsi_series (column b).
Proof.
  intros Hg Hl. unfold App.rsi_series, App.rsi_gain, App.rsi_loss. cbv zeta.
  by rewrite !gains_column, !losses_column, Hg, Hl.
Qed.

Lemma bars_shift (f : Qc -> Qc) (c : Qc) (t u : list Qc) :
  zip_with (fun x p => f (x - p))
    ((fun x => x + c) <$> t) ((fun x => x + c) <$> u)
  = zip_with (fun x p => f (x - p)) t u.
Proof.
  revert u. induction t as [|x t IH]; intros [|p u]; simpl; auto.
  rewrite IH. f_equal. f_equal. ring.
Qed.

(** Adding the same amount to every close leaves the RSI column as it
    is: the RSI depends on the changes of the close only. *)
Theorem rsi_shift_invariant (c : Qc) (closes : list Qc) :
  App.rsi_series (column ((fun x => x + c) <$> closes))
  = App.rsi_series (column closes).
Proof.
  apply rsi_series_same_bars; destruct closes as [|x t]; try reflexivity;
    cbn [fmap list_fmap bar_gains bar_losses]; f_equal;
    apply (bars_shift _ c t (x :: t)).
Qed.

End RSIMore.

(** ** When the RSI is undefined *)

Section RSIUndefined.

Local Open Scope Qc_scope.
Import Spec.

Lemma change_zero_iff (closes : list Qc) (j : nat) :
  (1 <= j < length closes)%nat ->
  change closes j = 0 <-> closes !! j = closes !! pred j.
Proof.
  intros Hj. destruct (change_lookup closes j Hj) as (c & p & Hc & Hp & ->).
  rewrite Hc, Hp. split.
  - intros H. f_equal. rewrite <- (Qcplus_0_l p), <- H. ring.
  - intros [= ->]. ring.
Qed.

(** On binary64 floats a finite number minus itself is zero. *)
Lemma float_sub_self (c : float) :
  is_finite c = true -> (c - c)%float = 0%float.
Proof.
  intros H. apply Prim2SF_inj. rewrite sub_spec.
  unfold is_finite, is_nan, is_infinity in H.
  rewrite !FloatAxioms.eqb_spec, abs_spec in H.
  change (Prim2SF infinity) with (S754_infinity false) in H.
  change (Prim2SF 0) with (S754_zero false).
  destruct (Prim2SF c) as [s|s| |s m e].
  - destruct s; reflexivity.
  - destruct s; discriminate H.
  - discriminate H.
  - unfold SF64sub, SFsub. rewrite Z.min_id. unfold shl_align.
    rewrite Z.sub_diag. reflexivity.
Qed.

Lemma float_diff_lookup (s : list float) (j : nat) (x p : float) :
  s !! S j = Some x -> s !! j = Some p ->
  Binary64.diff s !! S j = Some (x - p)%float.
Proof.
  intros Hx Hp. destruct s as [|a t]; [discriminate|].
  cbn [Binary64.diff]. change ((?h :: ?l) !! S j) with (l !! j).
  rewrite lookup_zip_with. change ((a :: t) !! S j) with (t !! j) in Hx.
  by rewrite Hx, Hp.
Qed.

(** The changes of a window without a price change: the gains are all
    [0] and the losses all [-0], the first bar of the series included. *)
Lemma float_flat_changes (f : float -> float) (z : float) (close : list float)
    (i : nat) :
  f PrimFloat.nan = z -> f 0%float = z ->
  (i < length close)%nat ->
  (forall j, (i - 13 <= j <= i)%nat -> (1 <= j)%nat ->
     exists c, is_finite c = true
               /\ close !! j = Some c /\ close !! pred j = Some c) ->
  forall j, (S i - 14 <= j <= i)%nat ->
    (f <$> Binary64.diff close) !! j = Some z.
Proof.
  intros Hnan Hzero Hi Hflat j Hj. rewrite list_lookup_fmap.
  destruct j as [|j].
  - destruct close as [|a t]; [simpl in Hi; lia|].
    cbn [Binary64.diff]. change ((?h :: ?l) !! 0%nat) with (Some h).
    cbn [fmap option_fmap option_map]. by rewrite Hnan.
  - destruct (Hflat (S j)) as (c & Hc & Hx & Hp); [lia|lia|].
    cbn [pred] in Hp. rewrite (float_diff_lookup close j c c Hx Hp).
    cbn [fmap option_fmap option_map]. by rewrite (float_sub_self c Hc), Hzero.
Qed.

Lemma float_rsi_flat_window (close : list float) (i : nat) :
  (13 <= i < length close)%nat ->
  (forall j, (i - 13 <= j <= i)%nat -> (1 <= j)%nat ->
     exists c, is_finite c = true
               /\ close !! j = Some c /\ close !! pred j = Some c) ->
  Binary64.rsi_gain close !! i = Some 0%float
  /\ Binary64.rsi_loss close !! i = Some (- 0)%float.
Proof.
  intros [Hi Hlen] Hflat.
  unfold Binary64.rsi_gain, Binary64.rsi_loss. cbv zeta.
  split; apply float_rolling_mean_flat_window;
    try (rewrite ?length_fmap, ?float_diff_length; lia);
    try reflexivity;
    by apply float_flat_changes.
Qed.

(** The RSI column on binary64 floats is undefined before bar 13 and on
    every window without a price change. *)
Lemma float_rsi_undefined (close : list float) (i : nat) :
  (i < length close)%nat ->
  ((i < 13)%nat
   \/ forall j, (i - 13 <= j <= i)%nat -> (1 <= j)%nat ->
        exists c, is_finite c = true
                  /\ close !! j = Some c /\ close !! pred j = Some c) ->
  Binary64.rsi_series close !! i = Some PrimFloat.nan.
Proof.
  intros Hi Hcases.
  destruct (float_rsi_series_pointwise close i Hi)
    as (gain & loss & Hg & Hl & ->). f_equal.
  destruct (decide (i < 13)%nat) as [Hearly|Hlate].
  - unfold Binary64.rsi_gain, Binary64.rsi_loss in Hg, Hl. cbv zeta in Hg, Hl.
    rewrite float_rolling_mean_warm_up in Hg
      by (rewrite ?length_fmap, ?float_diff_length; lia).
    rewrite float_rolling_mean_warm_up in Hl
      by (rewrite ?length_fmap, ?float_diff_length; lia).
    inversion Hg. inversion Hl. reflexivity.
  - destruct Hcases as [Hlt|Hflat]; [lia|].
    destruct (float_rsi_flat_window close i) as [Hg0 Hl0]; [lia|done|].
    rewrite Hg0 in Hg. rewrite Hl0 in Hl. inversion Hg. inversion Hl.
    reflexivity.
Qed.

(** The warm-up of the RSI is 13 bars, not 14: the first change, which
    [diff] leaves undefined, is replaced by 0 in the gains and in the
    losses, so the 14th bar has its 14 observations.  Before bar 13 the
    RSI is undefined; from bar 13 on it is undefined whenever the close
    did not change over the bars of the window; and it can be defined at
    bar 13, as on the rising series.  The same holds of the column
    computed on binary64 floats, for finite closes. *)
Theorem rsi_undefined_on_flat_window (closes : list Qc) (i : nat) :
  (i < length closes)%nat ->
  ((i < 13)%nat
   \/ forall j, (i - 13 <= j <= i)%nat -> (1 <= j)%nat ->
                closes !! j = closes !! pred j) ->
  App.rsi_series (column closes) !! i = Some NaN
  /\ App.rsi_series (column Samples.rising15) !! 13%nat
     = Some (Fin (Num.of_Z 100))
  /\ (forall (close : list float) (k : nat),
        (k < length close)%nat ->
        ((k < 13)%nat
         \/ forall j, (k - 13 <= j <= k)%nat -> (1 <= j)%nat ->
              exists c, is_finite c = true
                        /\ close !! j = Some c /\ close !! pred j = Some c) ->
        Binary64.rsi_series close !! k = Some PrimFloat.nan)
  /\ Binary64.rsi_series
       [10; 11; 12; 13; 14; 15; 16; 17; 18; 19; 20; 21; 22; 23; 24]%float
     !! 13%nat = Some 100%float.
Proof.
  intros Hi Hcases.
  split; [|split; [by apply rsi_increasing;
    [apply increasingb_spec; vm_compute|simpl; lia]
    |split; [exact float_rsi_undefined|vm_compute; reflexivity]]].
  rewrite rsi_series_lookup by done.
  destruct (Nat.leb_spec 14 (S i)) as [Hlate|Hearly]; [|reflexivity].
  destruct Hcases as [Hlt|Hflat]; [lia|]. f_equal.
  rewrite !mean_zero; [apply rsi_formula_zero_zero| |].
  - apply window_Forall. intros j x Hj Hx. destruct j as [|j].
    + by apply bar_losses_first in Hx.
    + assert (Hlen : (S j < length closes)%nat) by lia.
      rewrite bar_losses_lookup in Hx by lia. inversion Hx.
      rewrite (proj2 (change_zero_iff closes (S j) ltac:(lia)));
        [apply loss_of_nonneg_arg, Qcle_refl|apply Hflat; lia].
  - apply window_Forall. intros j x Hj Hx. destruct j as [|j].
    + by apply bar_gains_first in Hx.
    + assert (Hlen : (S j < length closes)%nat) by lia.
      rewrite bar_gains_lookup in Hx by lia. inversion Hx.
      rewrite (proj2 (change_zero_iff closes (S j) ltac:(lia)));
        [apply gain_of_nonpos, Qcle_refl|apply Hflat; lia].
Qed.

Lemma rsi_undefined_on_flat_window_witness :
  App.rsi_series (column (replicate 14 (Num.of_Z 10))) !! 13%nat = Some NaN.
Proof.
  apply (rsi_undefined_on_flat_window (replicate 14 (Num.of_Z 10)) 13);
    [simpl; lia|].
  right. intros j Hj Hj1.
  rewrite !(lookup_replicate_2 _ (Num.of_Z 10)) by lia. reflexivity.
Defined.

End RSIUndefined.


(** ** Highest and lowest price *)

Section Extremes.

Local Open Scope Qc_scope.

Lemma num_lt_irrefl (x : num) : ~ Num.lt x x.
Proof. intros H. inversion H; subst. by eapply Qclt_irrefl. Qed.

Lemma num_lt_trans (x y z : num) : Num.lt x y -> Num.lt y z -> Num.lt x z.
Proof.
  intros Hxy Hyz. inversion Hxy; subst; inversion Hyz; subst; constructor.
  by eapply Qclt_trans.
Qed.

Lemma num_lt_total (x y : num) :
  x <> NaN -> y <> NaN -> Num.lt x y \/ x = y \/ Num.lt y x.
Proof.
  intros Hx Hy. destruct x as [a| | |], y as [b| | |]; try done.
  - destruct (Qc_dec a b) as [[Hlt|Hgt]| ->].
    + left. by constructor.
    + right. right. by constructor.
    + right. by left.
  - left. constructor.
  - right. right. constructor.
  - right. right. constructor.
  - right. by left.
  - right. right. constructor.
  - left. constructor.
  - left. constructor.
  - right. by left.
Qed.

Lemma max2_nan (x m : num) : Series.max2 x m = NaN <-> x = NaN /\ m = NaN.
Proof.
  unfold Series.max2. destruct x, m; simpl;
    try destruct (Num.Qcltb _ _); split; (intros [? ?] || intros ?);
    try done.
Qed.

Lemma min2_nan (x m : num) : Series.min2 x m = NaN <-> x = NaN /\ m = NaN.
Proof.
  unfold Series.min2. destruct x, m; simpl;
    try destruct (Num.Qcltb _ _); split; (intros [? ?] || intros ?);
    try done.
Qed.

Lemma max_nan (s : list num) :
  Series.max s = NaN <-> Forall (fun x => x = NaN) s.
Proof.
  induction s as [|x s IH]; [by split|].
  change (Series.max (x :: s)) with (Series.max2 x (Series.max s)).
  rewrite max2_nan, IH, Forall_cons. reflexivity.
Qed.

Lemma min_nan (s : list num) :
  Series.min s = NaN <-> Forall (fun x => x = NaN) s.
Proof.
  induction s as [|x s IH]; [by split|].
  change (Series.min (x :: s)) with (Series.min2 x (Series.min s)).
  rewrite min2_nan, IH, Forall_cons. reflexivity.
Qed.

Lemma max2_cases (x m : num) :
  (x = NaN /\ Series.max2 x m = m)
  \/ (x <> NaN /\ m = NaN /\ Series.max2 x m = x)
  \/ (x <> NaN /\ m <> NaN /\ Num.lt x m /\ Series.max2 x m = m)
  \/ (x <> NaN /\ m <> NaN /\ ~ Num.lt x m /\ Series.max2 x m = x).
Proof.
  unfold Series.max2. destruct (Num.is_nan x) eqn:Ex.
  { left. by destruct x. }
  assert (Hx : x <> NaN) by (by destruct x).
  destruct (Num.is_nan m) eqn:Em.
  { right. left. by destruct m. }
  assert (Hm : m <> NaN) by (by destruct m).
  destruct (Num.ltb x m) eqn:E.
  - right. right. left. by apply ltb_lt in E.
  - right. right. right. by apply ltb_false in E.
Qed.

Lemma min2_cases (x m : num) :
  (x = NaN /\ Series.min2 x m = m)
  \/ (x <> NaN /\ m = NaN /\ Series.min2 x m = x)
  \/ (x <> NaN /\ m <> NaN /\ Num.lt m x /\ Series.min2 x m = m)
  \/ (x <> NaN /\ m <> NaN /\ ~ Num.lt m x /\ Series.min2 x m = x).
Proof.
  unfold Series.min2. destruct (Num.is_nan x) eqn:Ex.
  { left. by destruct x. }
  assert (Hx : x <> NaN) by (by destruct x).
  destruct (Num.is_nan m) eqn:Em.
  { right. left. by destruct m. }
  assert (Hm : m <> NaN) by (by destruct m).
  destruct (Num.ltb m x) eqn:E.
  - right. right. left. by apply ltb_lt in E.
  - right. right. right. by apply ltb_false in E.
Qed.

Lemma lt_nan_r (x : num) : ~ Num.lt x NaN.
Proof. intros H. inversion H. Qed.

Lemma lt_nan_l (x : num) : ~ Num.lt NaN x.
Proof. intros H. inversion H. Qed.

Lemma max_is_greatest (s : list num) :
  Series.max s <> NaN ->
  Series.max s ∈ s /\ forall x, x ∈ s -> ~ Num.lt (Series.max s) x.
Proof.
  induction s as [|x s IH]; [done|].
  change (Series.max (x :: s)) with (Series.max2 x (Series.max s)).
  destruct (max2_cases x (Series.max s))
    as [(-> & E)|[(Hx & Hm & E)|[(Hx & Hm & Hlt & E)|(Hx & Hm & Hlt & E)]]];
    rewrite E; intros Hr.
  - destruct (IH Hr) as [Hin Hall]. split; [by apply elem_of_cons; right|].
    intros y [->|Hy]%elem_of_cons; [apply lt_nan_r|by apply Hall].
  - split; [by apply elem_of_cons; left|].
    intros y [->|Hy]%elem_of_cons; [apply num_lt_irrefl|].
    apply max_nan in Hm. eapply Forall_forall in Hm; [|exact Hy].
    rewrite Hm. apply lt_nan_r.
  - destruct (IH Hm) as [Hin Hall]. split; [by apply elem_of_cons; right|].
    intros y [->|Hy]%elem_of_cons; [|by apply Hall].
    intros H. exact (num_lt_irrefl _ (num_lt_trans _ _ _ Hlt H)).
  - destruct (IH Hm) as [Hin Hall]. split; [by apply elem_of_cons; left|].
    intros y [->|Hy]%elem_of_cons; [apply num_lt_irrefl|].
    intros Hxy. assert (Hy0 : y <> NaN) by (intros ->; by apply lt_nan_r in Hxy).
    destruct (num_lt_total (Series.max s) y Hm Hy0) as [H|[H|H]].
    + by apply (Hall y).
    + apply Hlt. by rewrite H.
    + apply Hlt. by eapply num_lt_trans.
Qed.

Lemma min_is_least (s : list num) :
  Series.min s <> NaN ->
  Series.min s ∈ s /\ forall x, x ∈ s -> ~ Num.lt x (Series.min s).
Proof.
  induction s as [|x s IH]; [done|].
  change (Series.min (x :: s)) with (Series.min2 x (Series.min s)).
  destruct (min2_cases x (Series.min s))
    as [(-> & E)|[(Hx & Hm & E)|[(Hx & Hm & Hlt & E)|(Hx & Hm & Hlt & E)]]];
    rewrite E; intros Hr.
  - destruct (IH Hr) as [Hin Hall]. split; [by apply elem_of_cons; right|].
    intros y [->|Hy]%elem_of_cons; [apply lt_nan_l|by apply Hall].
  - split; [by apply elem_of_cons; left|].
    intros y [->|Hy]%elem_of_cons; [apply num_lt_irrefl|].
    apply min_nan in Hm. eapply Forall_forall in Hm; [|exact Hy].
    rewrite Hm. apply lt_nan_l.
  - destruct (IH Hm) as [Hin Hall]. split; [by apply elem_of_cons; right|].
    intros y [->|Hy]%elem_of_cons; [|by apply Hall].
    intros H. exact (num_lt_irrefl _ (num_lt_trans _ _ _ H Hlt)).
  - destruct (IH Hm) as [Hin Hall]. split; [by apply elem_of_cons; left|].
    intros y [->|Hy]%elem_of_cons; [apply num_lt_irrefl|].
    intros Hxy. assert (Hy0 : y <> NaN) by (intros ->; by apply lt_nan_l in Hxy).
    destruct (num_lt_total y (Series.min s) Hy0 Hm) as [H|[H|H]].
    + by apply (Hall y).
    + apply Hlt. by rewrite <- H.
    + apply Hlt. by eapply num_lt_trans.
Qed.

(** The highest and the lowest price of lines 56 and 57: missing values
    are skipped; the result is [nan] only when every entry is missing,
    and otherwise it is an entry of the column that no entry exceeds
    (for the maximum) or goes below (for the minimum). *)
Theorem highest_lowest_price (s : list num) :
  (Series.max s = NaN <-> Forall (fun x => x = NaN) s)
  /\ (Series.min s = NaN <-> Forall (fun x => x = NaN) s)
  /\ (forall x, x ∈ s -> x <> NaN ->
        Series.max s ∈ s /\ Series.min s ∈ s
        /\ Series.max s <> NaN /\ Series.min s <> NaN
        /\ ~ Num.lt (Series.max s) x /\ ~ Num.lt x (Series.min s)).
Proof.
  split; [apply max_nan|]. split; [apply min_nan|].
  intros x Hx Hx0.
  assert (Hmax : Series.max s <> NaN).
  { intros H. apply max_nan in H. eapply Forall_forall in H; eauto. }
  assert (Hmin : Series.min s <> NaN).
  { intros H. apply min_nan in H. eapply Forall_forall in H; eauto. }
  destruct (max_is_greatest s Hmax) as [H1 H2].
  destruct (min_is_least s Hmin) as [H3 H4].
  repeat split; auto.
Qed.

Lemma highest_lowest_price_witness :
  Series.max [NaN; Fin (Num.of_Z 3); Fin (Num.of_Z 7); NaN] <> NaN
  /\ ~ Num.lt (Series.max [NaN; Fin (Num.of_Z 3); Fin (Num.of_Z 7); NaN])
         (Fin (Num.of_Z 3)).
Proof.
  destruct (proj2 (proj2 (highest_lowest_price
              [NaN; Fin (Num.of_Z 3); Fin (Num.of_Z 7); NaN]))
              (Fin (Num.of_Z 3)))
    as (_ & _ & H1 & _ & H2 & _).
  - apply elem_of_cons. right. apply elem_of_cons. by left.
  - discriminate.
  - split; [exact H1|exact H2].
Defined.

End Extremes.

(** ** The heading of the recommendation *)

Section Heading.

Import Analysis.

Lemma split_head_dotless (s : string) : dotless (App.split_head s) = true.
Proof.
  induction s as [|c s IH]; [reflexivity|]. cbn [App.split_head].
  destruct (Ascii.eqb c ".") eqn:E; [reflexivity|].
  cbn [dotless]. by rewrite E, IH.
Qed.

Lemma split_head_prefix (s : string) :
  exists rest, s = App.split_head s ++ rest.
Proof.
  induction s as [|c s [rest IH]]; [by exists ""|]. cbn [App.split_head].
  destruct (Ascii.eqb c "."); [by eexists|].
  exists rest. exact (f_equal (String c) IH).
Qed.

(** The heading names the symbol up to its first dot: a name without a
    dot followed by a dot and anything (the [.NS] that the catalog
    appends) gives the name back, and so does the bare name. *)
Theorem split_head_drops_suffix (name rest : string) :
  dotless name = true ->
  App.split_head (name ++ "." ++ rest) = name
  /\ App.split_head name = name.
Proof.
  induction name as [|c name IH]; intros Hname.
  - split; reflexivity.
  - cbn [dotless] in Hname. apply andb_true_iff in Hname as [Hc Hname].
    apply negb_true_iff in Hc. destruct (IH Hname) as [IH1 IH2].
    split.
    + change (App.split_head (String c (name ++ "." ++ rest)) = String c name).
      cbn [App.split_head]. rewrite Hc. f_equal. exact IH1.
    + cbn [App.split_head]. rewrite Hc. f_equal. exact IH2.
Qed.

Lemma split_head_drops_suffix_witness :
  App.split_head ("HDFCBANK" ++ "." ++ "NS") = "HDFCBANK"
  /\ App.split_head "HDFCBANK" = "HDFCBANK".
Proof. apply split_head_drops_suffix. reflexivity. Defined.

End Heading.

(** ** The whole analysis of a fetched frame *)

Section AnalysisRun.

Import Analysis.

Lemma emit_ok (e : event) (st : state) :
  emit e st = (Ok tt, State (frames st) (out st ++ [e])).
Proof. reflexivity. Qed.

Lemma iloc_last_ok (s : list num) (v : num) (st : state) :
  last s = Some v -> iloc_last s st = (Ok v, st).
Proof. intros H. unfold iloc_last, Series.iloc_last. by rewrite H. Qed.

Lemma plot_ok (l : loc) (y : list string) (title : string) (st : state)
    (df : DataFrame) :
  frames st !! l = Some df ->
  Forall (fun c => is_Some (columns df !! c)) y ->
  plot l y title st = (Ok tt, State (frames st) (out st ++ [StChart title y])).
Proof.
  intros Hl Hy. unfold plot, bind, read_frame. rewrite Hl.
  assert (E : forallb (fun c => bool_decide (is_Some (columns df !! c))) y
              = true).
  { apply forallb_forall. intros c Hc. apply bool_decide_eq_true.
    eapply Forall_forall in Hy; [exact Hy|]. by apply list_elem_of_In. }
  by rewrite E.
Qed.

Lemma candlestick_ok (l : loc) (st : state) (df : DataFrame) :
  frames st !! l = Some df ->
  Forall (fun c => is_Some (columns df !! c)) ["Open"; "High"; "Low"; "Close"] ->
  App.candlestick l st
  = (Ok tt, State (frames st)
              (out st ++ [StChart "" ["Open"; "High"; "Low"; "Close"]])).
Proof.
  intros Hl Hy.
  apply Forall_cons in Hy as [[o Ho] Hy]. apply Forall_cons in Hy as [[h Hh] Hy].
  apply Forall_cons in Hy as [[w Hw] Hy]. apply Forall_cons in Hy as [[c Hc] _].
  unfold App.candlestick.
  rewrite (bind_ok _ _ st st o) by (eapply getitem_ok; eassumption).
  rewrite (bind_ok _ _ st st h) by (eapply getitem_ok; eassumption).
  rewrite (bind_ok _ _ st st w) by (eapply getitem_ok; eassumption).
  rewrite (bind_ok _ _ st st c) by (eapply getitem_ok; eassumption).
  reflexivity.
Qed.

Lemma diff_length (s : list num) : length (Series.diff s) = length s.
Proof.
  destruct s as [|x t]; [reflexivity|]. cbn [Series.diff length].
  rewrite length_zip_with. cbn [length]. lia.
Qed.

(** The RSI column has one value per bar, whatever the column holds. *)
Lemma rsi_series_length_any (close : list num) :
  length (App.rsi_series close) = length close.
Proof.
  unfold App.rsi_series, App.rsi_gain, App.rsi_loss. cbv zeta.
  rewrite !where_gt, !where_lt. unfold Series.neg.
  unfold App.rsi_of_rs, Series.rsub, Series.rdiv, Series.radd, Series.div.
  rewrite !length_fmap, length_zip_with, !rolling_mean_length.
  rewrite !length_fmap, diff_length. lia.
Qed.

Lemma last_of_length {A} (s : list A) (n : nat) :
  length s = S n -> exists v, last s = Some v.
Proof.
  intros H. rewrite last_lookup, H. cbn [pred].
  apply lookup_lt_is_Some_2. lia.
Qed.

End AnalysisRun.

Section AnalysisTheorem.

Import Analysis.

Ltac run_with tac := etrans; [apply bind_ok; tac|]; cbv beta; cbn [frames out].

Ltac column_lookup :=
  cbn [columns index df_setitem];
  repeat (rewrite lookup_insert_ne by done);
  first [apply lookup_insert_eq | eassumption].

Ltac columns_there :=
  repeat (apply Forall_cons; split;
          [cbn [columns index df_setitem];
           repeat (rewrite lookup_insert_ne by done);
           first [rewrite lookup_insert_eq; by eexists
                 | eassumption | by eexists]|]);
  apply Forall_nil_2.

(** Lines 52 to 125 step by step, on a frame that has the five price
    columns and at least one bar. *)
Lemma analyse_steps (l : loc) (st : state) (df : DataFrame)
    (close : list num) (latest : num) (name : string) :
  frames st !! l = Some df ->
  columns df !! "Close" = Some close ->
  is_Some (columns df !! "Open") ->
  is_Some (columns df !! "High") ->
  is_Some (columns df !! "Low") ->
  is_Some (columns df !! "Volume") ->
  last close = Some latest ->
  exists rsi sma20 sma50 sma100,
    last (App.rsi_series close) = Some rsi
    /\ last (Series.rolling_mean 20 close) = Some sma20
    /\ last (Series.rolling_mean 50 close) = Some sma50
    /\ last (Series.rolling_mean 100 close) = Some sma100
    /\ App.analyse l (Some name) st
       = (Ok tt,
          State (<[l := with_indicators close df]> (frames st))
            (out st ++ shown name close latest rsi sma20 sma50 sma100)).
Proof.
  intros Hl Hc HO HH HL HV Hlast.
  assert (Hlen : exists n, length close = S n).
  { destruct close; [discriminate|]. by eexists. }
  destruct Hlen as [n Hlen].
  destruct (last_of_length (App.rsi_series close) n) as [rsi Hrsi];
    [by rewrite rsi_series_length_any|].
  destruct (last_of_length (Series.rolling_mean 20 close) n) as [sma20 H20];
    [by rewrite rolling_mean_length|].
  destruct (last_of_length (Series.rolling_mean 50 close) n) as [sma50 H50];
    [by rewrite rolling_mean_length|].
  destruct (last_of_length (Series.rolling_mean 100 close) n) as [sma100 H100];
    [by rewrite rolling_mean_length|].
  exists rsi, sma20, sma50, sma100. do 4 (split; [assumption|]).
  unfold App.analyse.
  run_with ltac:(eapply getitem_ok; [exact Hl|exact Hc]).
  run_with ltac:(apply iloc_last_ok; exact Hlast).
  run_with ltac:(apply emit_ok).
  run_with ltac:(eapply getitem_ok; [exact Hl|exact Hc]).
  cbv zeta.
  run_with ltac:(apply emit_ok).
  run_with ltac:(apply emit_ok).
  run_with ltac:(eapply plot_ok; [exact Hl|columns_there]).
  run_with ltac:(eapply plot_ok; [exact Hl|columns_there]).
  run_with ltac:(apply emit_ok).
  run_with ltac:(eapply moving_averages_run; [exact Hl|exact Hc]).
  run_with ltac:(eapply plot_ok; [apply lookup_insert_eq|columns_there]).
  run_with ltac:(apply emit_ok).
  run_with ltac:(eapply candlestick_ok; [apply lookup_insert_eq|columns_there]).
  run_with ltac:(eapply relative_strength_run;
                 [apply lookup_insert_eq|column_lookup]).
  rewrite insert_insert_eq. cbn [index columns].
  run_with ltac:(eapply plot_ok; [apply lookup_insert_eq|columns_there]).
  run_with ltac:(apply emit_ok).
  run_with ltac:(eapply getitem_ok; [apply lookup_insert_eq|column_lookup]).
  run_with ltac:(apply iloc_last_ok; exact Hrsi).
  run_with ltac:(eapply getitem_ok; [apply lookup_insert_eq|column_lookup]).
  run_with ltac:(apply iloc_last_ok; exact H20).
  run_with ltac:(eapply getitem_ok; [apply lookup_insert_eq|column_lookup]).
  run_with ltac:(apply iloc_last_ok; exact H50).
  run_with ltac:(eapply getitem_ok; [apply lookup_insert_eq|column_lookup]).
  run_with ltac:(apply iloc_last_ok; exact H100).
  run_with ltac:(apply emit_ok).
  run_with ltac:(reflexivity).
  run_with ltac:(apply emit_ok).
  run_with ltac:(eapply getitem_ok; [apply lookup_insert_eq|column_lookup]).
  run_with ltac:(apply iloc_last_ok; exact Hlast).
  run_with ltac:(eapply getitem_ok; [apply lookup_insert_eq|column_lookup]).
  run_with ltac:(apply iloc_last_ok; exact H20).
  run_with ltac:(eapply getitem_ok; [apply lookup_insert_eq|column_lookup]).
  run_with ltac:(apply iloc_last_ok; exact H50).
  run_with ltac:(eapply getitem_ok; [apply lookup_insert_eq|column_lookup]).
  run_with ltac:(apply iloc_last_ok; exact Hrsi).
  rewrite emit_ok. cbn [frames out]. unfold shown, with_indicators, df_setitem.
  cbn [index columns]. rewrite <- !app_assoc. reflexivity.
Qed.

End AnalysisTheorem.

(** ** Short histories and missing columns *)

Section AnalysisEdges.

Import Analysis.

Ltac run_with tac := etrans; [apply bind_ok; tac|]; cbv beta; cbn [frames out].

Lemma last_rolling_mean_short (n : nat) (close : list num) :
  close <> [] -> (length close < n)%nat ->
  last (Series.rolling_mean n close) = Some NaN.
Proof.
  intros Hne Hshort. rewrite last_lookup, rolling_mean_length.
  destruct close as [|x t]; [done|]. cbn [length pred] in *.
  apply rolling_mean_warm_up; cbn [length]; lia.
Qed.

Lemma rsi_series_warm_up_any (close : list num) (i : nat) :
  (i < 13)%nat -> (i < length close)%nat ->
  App.rsi_series close !! i = Some NaN.
Proof.
  intros Hi Hlen.
  unfold App.rsi_series, App.rsi_gain, App.rsi_loss. cbv zeta.
  rewrite !where_gt, !where_lt. unfold Series.neg.
  unfold App.rsi_of_rs, Series.rsub, Series.rdiv, Series.radd, Series.div.
  rewrite !list_lookup_fmap, lookup_zip_with.
  rewrite !rolling_mean_warm_up
    by (rewrite ?length_fmap, ?diff_length; lia).
  reflexivity.
Qed.

Lemma last_rsi_short (close : list num) :
  close <> [] -> (length close < 14)%nat ->
  last (App.rsi_series close) = Some NaN.
Proof.
  intros Hne Hshort. rewrite last_lookup, rsi_series_length_any.
  destruct close as [|x t]; [done|]. cbn [length pred] in *.
  apply rsi_series_warm_up_any; cbn [length]; lia.
Qed.

(** Too short a history: when the frame has fewer than 50 bars, the
    analysis ends normally and the first sentence of the recommendation
    it shows last is the Hold message, whatever the prices; with fewer
    than 14 bars the second sentence is the Neutral message as well. *)
Theorem short_history_gives_hold (l : loc) (st : state) (df : DataFrame)
    (close : list num) (name : string) :
  frames st !! l = Some df ->
  price_frame df close ->
  (length close < 50)%nat ->
  exists st' rsi_part,
    App.analyse l (Some name) st = (Ok tt, st')
    /\ last (out st') = Some (StWrite (App.hold_message ++ rsi_part))
    /\ rsi_part ∈ [App.oversold_message; App.overbought_message;
                   App.neutral_message]
    /\ ((length close < 14)%nat -> rsi_part = App.neutral_message).
Proof.
  intros Hl (Hidx & Hc & Hne & HO & HH & HL & HV) Hshort.
  destruct (last close) as [latest|] eqn:Hlast;
    [|by apply last_None in Hlast].
  destruct (analyse_steps l st df close latest name Hl Hc HO HH HL HV Hlast)
    as (rsi & sma20 & sma50 & sma100 & Hrsi & H20 & H50 & H100 & Hrun).
  rewrite last_rolling_mean_short in H50 by done. inversion H50; subst sma50.
  eexists. exists (if Num.ltb rsi App.thirty then App.oversold_message
                   else if Num.gtb rsi App.seventy
                        then App.overbought_message
                        else App.neutral_message).
  split; [exact Hrun|]. cbn [out]. split; [|split].
  - unfold shown. rewrite last_app. cbn [last].
    rewrite recommend_split. unfold Num.gtb.
    rewrite !ltb_nan_l, !ltb_nan_r, !andb_false_r. reflexivity.
  - destruct (Num.ltb rsi App.thirty); [|destruct (Num.gtb rsi App.seventy)];
      rewrite !elem_of_cons; tauto.
  - intros H14. rewrite last_rsi_short in Hrsi by done.
    inversion Hrsi; subst rsi. reflexivity.
Qed.

Lemma short_history_gives_hold_witness :
  exists st' rsi_part,
    App.analyse 0 (Some "TCS.NS") (State {[ 0%nat := Samples.short_frame ]} [])
    = (Ok tt, st')
    /\ last (out st') = Some (StWrite (App.hold_message ++ rsi_part)).
Proof.
  destruct (short_history_gives_hold 0
              (State {[ 0%nat := Samples.short_frame ]} [])
              Samples.short_frame
              (Fin <$> Samples.closes_of [11; 12]%Z) "TCS.NS")
    as (st' & rsi_part & Hrun & Hlast & _).
  - reflexivity.
  - repeat split; try done; by eexists.
  - simpl. lia.
  - by exists st', rsi_part.
Defined.

(** Missing columns.  Without a [Close] column the analysis raises
    [KeyError] at once: nothing is shown and the frame is left alone.
    With [Close] but without [Volume] it raises [ValueError] when it
    comes to the volume chart: the three prices and the closing price
    chart have been shown, and no indicator column has been added. *)
Theorem analyse_missing_column (l : loc) (st : state) (df : DataFrame)
    (selected : option string) :
  frames st !! l = Some df ->
  (columns df !! "Close" = None ->
   App.analyse l selected st = (Raise (KeyError "Close"), st))
  /\ (forall close latest,
        columns df !! "Close" = Some close -> last close = Some latest ->
        columns df !! "Volume" = None ->
        App.analyse l selected st
        = (Raise ValueError,
           State (frames st)
             (out st
              ++ [StWriteNum "Latest Closing Price: " latest;
                  StWriteNum " Highest Price in selected range: "
                    (Series.max close);
                  StWriteNum " Lowest Price in selected range: "
                    (Series.min close);
                  StChart "Closing Price" ["Close"]]))).
Proof.
  intros Hl. split.
  - intros Hc. unfold App.analyse, bind at 1, getitem, bind, read_frame.
    rewrite Hl. cbn [from_option]. rewrite Hc. reflexivity.
  - intros close latest Hc Hlast Hv. unfold App.analyse.
    run_with ltac:(eapply getitem_ok; [exact Hl|exact Hc]).
    run_with ltac:(apply iloc_last_ok; exact Hlast).
    run_with ltac:(apply emit_ok).
    run_with ltac:(eapply getitem_ok; [exact Hl|exact Hc]).
    cbv zeta.
    run_with ltac:(apply emit_ok).
    run_with ltac:(apply emit_ok).
    run_with ltac:(eapply plot_ok;
                   [exact Hl
                   |apply Forall_cons; split; [by eexists|apply Forall_nil_2]]).
    unfold bind at 1, plot, bind, read_frame. cbn [frames out]. rewrite Hl.
    cbn [forallb]. rewrite Hv.
    rewrite bool_decide_eq_false_2 by (by intros [? ?]).
    cbn [andb raise]. rewrite <- !app_assoc. reflexivity.
Qed.

Lemma analyse_missing_column_witness :
  App.analyse 0 (Some "TCS.NS")
    (State {[ 0%nat := Frame [Date 2024 6 18] ∅ ]} [])
  = (Raise (KeyError "Close"), State {[ 0%nat := Frame [Date 2024 6 18] ∅ ]} []).
Proof.
  assert (H : frames (State {[ 0%nat := Frame [Date 2024 6 18] ∅ ]} [])
              !! 0%nat = Some (Frame [Date 2024 6 18] ∅)) by reflexivity.
  apply (proj1 (analyse_missing_column 0 _ _ (Some "TCS.NS") H)).
  reflexivity.
Defined.

Lemma bind_raise {A B} (m : M A) (k : A -> M B) (st st' : state) (e : exn) :
  m st = (Raise e, st') -> bind m k st = (Raise e, st').
Proof. intros H. unfold bind. by rewrite H. Qed.

Lemma getitem_missing (l : loc) (name : string) (st : state) (df : DataFrame) :
  frames st !! l = Some df -> columns df !! name = None ->
  getitem l name st = (Raise (KeyError name), st).
Proof.
  intros Hl Hc. unfold getitem, bind, read_frame. rewrite Hl. simpl.
  by rewrite Hc.
Qed.

(** A frame without [Open], [High] or [Low].  The candlestick figure
    indexes the frame itself, so the analysis raises [KeyError] with the
    name of the first of the three columns that is missing.  By then the
    prices, the first three charts and the heading of the candlestick
    chart have been shown and the three moving averages have been
    written into the fetched frame; the RSI has not. *)
Theorem analyse_missing_candlestick_column (l : loc) (st : state)
    (df : DataFrame) (close : list num) (latest : num)
    (selected : option string) (name : string) :
  frames st !! l = Some df ->
  columns df !! "Close" = Some close ->
  last close = Some latest ->
  is_Some (columns df !! "Volume") ->
  (name = "Open"
   \/ (name = "High" /\ is_Some (columns df !! "Open"))
   \/ (name = "Low" /\ is_Some (columns df !! "Open")
       /\ is_Some (columns df !! "High"))) ->
  columns df !! name = None ->
  App.analyse l selected st
  = (Raise (KeyError name),
     State (<[l := with_moving_averages close df]> (frames st))
       (out st ++ shown_before_candlestick close latest))
  /\ columns (with_moving_averages close df) !! "RSI" = columns df !! "RSI".
Proof.
  intros Hl Hc Hlast HV Hname Hmissing. split.
  - unfold App.analyse.
    run_with ltac:(eapply getitem_ok; [exact Hl|exact Hc]).
    run_with ltac:(apply iloc_last_ok; exact Hlast).
    run_with ltac:(apply emit_ok).
    run_with ltac:(eapply getitem_ok; [exact Hl|exact Hc]).
    cbv zeta.
    run_with ltac:(apply emit_ok).
    run_with ltac:(apply emit_ok).
    run_with ltac:(eapply plot_ok;
                   [exact Hl
                   |apply Forall_cons; split; [by eexists|apply Forall_nil_2]]).
    run_with ltac:(eapply plot_ok;
                   [exact Hl
                   |apply Forall_cons; split; [exact HV|apply Forall_nil_2]]).
    run_with ltac:(apply emit_ok).
    run_with ltac:(eapply moving_averages_run; [exact Hl|exact Hc]).
    run_with ltac:(eapply plot_ok;
                   [apply lookup_insert_eq
                   |repeat (apply Forall_cons; split;
                      [cbn [columns];
                       repeat (rewrite lookup_insert_ne by done);
                       first [rewrite lookup_insert_eq; by eexists
                             |rewrite Hc; by eexists]|]);
                    apply Forall_nil_2]).
    run_with ltac:(apply emit_ok).
    apply bind_raise. unfold App.candlestick.
    unfold with_moving_averages, shown_before_candlestick, df_setitem.
    cbn [index columns]. rewrite <- !app_assoc. cbn [app].
    set (df' := Frame _ _). set (st' := State _ _).
    assert (Hl' : frames st' !! l = Some df') by apply lookup_insert_eq.
    assert (Hcol : forall c, c ∈ ["Open"; "High"; "Low"] ->
                     columns df' !! c = columns df !! c).
    { intros c Hin. unfold df'. cbn [columns].
      rewrite !elem_of_cons, elem_of_nil in Hin.
      destruct Hin as [-> | [-> | [-> | []]]];
        by rewrite !lookup_insert_ne by done. }
    destruct Hname as [-> | [[-> [o Ho]] | [-> [[o Ho] [h Hh]]]]].
    + apply bind_raise, (getitem_missing l _ st' df' Hl').
      rewrite Hcol; [done|]. rewrite !elem_of_cons. tauto.
    + run_with ltac:(eapply (getitem_ok l _ st' df' o Hl');
                     rewrite Hcol; [done|rewrite !elem_of_cons; tauto]).
      apply bind_raise, (getitem_missing l _ st' df' Hl').
      rewrite Hcol; [done|]. rewrite !elem_of_cons. tauto.
    + run_with ltac:(eapply (getitem_ok l _ st' df' o Hl');
                     rewrite Hcol; [done|rewrite !elem_of_cons; tauto]).
      run_with ltac:(eapply (getitem_ok l _ st' df' h Hl');
                     rewrite Hcol; [done|rewrite !elem_of_cons; tauto]).
      apply bind_raise, (getitem_missing l _ st' df' Hl').
      rewrite Hcol; [done|]. rewrite !elem_of_cons. tauto.
  - unfold with_moving_averages, df_setitem. cbn [columns].
    by rewrite !lookup_insert_ne by done.
Qed.

Lemma analyse_missing_candlestick_column_witness :
  exists st' df',
    App.analyse 0 (Some "TCS.NS")
      (State {[ 0%nat := Samples.no_open_frame ]} [])
    = (Raise (KeyError "Open"), st')
    /\ frames st' !! 0%nat = Some df'
    /\ is_Some (columns df' !! "SMA20")
    /\ columns df' !! "RSI" = None.
Proof.
  destruct (analyse_missing_candlestick_column 0
              (State {[ 0%nat := Samples.no_open_frame ]} [])
              Samples.no_open_frame
              (Fin <$> Samples.closes_of [11; 12]%Z)
              (Fin (Num.of_Z 12)) (Some "TCS.NS") "Open") as [Hrun Hrsi].
  - reflexivity.
  - reflexivity.
  - reflexivity.
  - by eexists.
  - by left.
  - reflexivity.
  - eexists _, _. split; [exact Hrun|]. cbn [frames].
    split; [apply lookup_insert_eq|]. split; [|by rewrite Hrsi].
    unfold with_moving_averages, df_setitem. cbn [columns].
    rewrite !lookup_insert_ne by done. rewrite lookup_insert_eq. by eexists.
Defined.

End AnalysisEdges.

(** ** The catalog and the fetch *)

Section CatalogAndFetch.

Import Analysis Spec.





Lemma fetch_stock_data_steps (w : world) (symbol : option string)
    (a b : date) (st : state) :
  (forall df, history w symbol a b = Returned df ->
     exists l,
       frames st !! l = None
       /\ App.fetch_stock_data w symbol a b st
          = (Ok (Some l),
             State (<[l := df]> (frames st))
               (out st ++ [TickerHistory symbol a b])))
  /\ (history w symbol a b = Failed ->
      App.fetch_stock_data w symbol a b st
      = (Ok None,
         State (frames st)
           (out st ++ [TickerHistory symbol a b;
                       StError ("Failed to fetch data for "
                                ++ App.show_symbol symbol
                                ++ ". Please try again.")]))).
Proof.
  split.
  - intros df H. exists (fresh (dom (frames st))). split.
    + apply not_elem_of_dom, is_fresh.
    + unfold App.fetch_stock_data, bind, emit, alloc, ret. rewrite H.
      reflexivity.
  - intros H. unfold App.fetch_stock_data, bind, emit, ret. rewrite H.
    cbn [frames out]. by rewrite <- app_assoc.
Qed.

(** [fetch_stock_data] never raises.  An answer of the provider becomes a
    new frame object at a location that was free, so the objects that
    were there are still there, and the frame read back from the store is
    the answer; a failure of the provider becomes an error message that
    names the symbol, and [None], with the store as it was. *)
Theorem fetch_stock_data_outcomes (w : world) (symbol : option string)
    (a b : date) (st : state) :
  exists r st',
    App.fetch_stock_data w symbol a b st = (Ok r, st')
    /\ (forall l df, frames st !! l = Some df -> frames st' !! l = Some df)
    /\ match history w symbol a b, r with
       | Returned df, Some l =>
           frames st !! l = None /\ frames st' !! l = Some df
           /\ out st' = (out st ++ [TickerHistory symbol a b])%list
       | Failed, None =>
           frames st' = frames st
           /\ out st'
              = (out st ++ [TickerHistory symbol a b;
                            StError ("Failed to fetch data for "
                                     ++ App.show_symbol symbol
                                     ++ ". Please try again.")])%list
       | _, _ => False
       end.
Proof.
  destruct (fetch_stock_data_steps w symbol a b st) as [Hok Hfail].
  destruct (history w symbol a b) as [df|].
  - destruct (Hok df eq_refl) as (l & Hfree & Hrun).
    eexists _, _. split; [exact Hrun|]. cbn [frames out]. split.
    + intros l' df' Hl'. rewrite lookup_insert_ne; [exact Hl'|congruence].
    + split; [exact Hfree|]. split; [apply lookup_insert_eq|reflexivity].
  - eexists _, _. split; [exact (Hfail eq_refl)|]. cbn [frames out].
    split; [auto|]. split; reflexivity.
Qed.

End CatalogAndFetch.

(** ** Whole runs with a valid date range *)

Section WholeRuns.

Import Analysis Spec.

Lemma get_nse_symbols_offered (w : world) (st : state) :
  App.get_nse_symbols w st
  = (Ok (offered w),
     State (frames st)
       (out st
        ++ ReadHtml "https://en.wikipedia.org/wiki/NIFTY_50"
           :: (if catalog_error w
               then [StError "Failed to fetch stock symbols. Using default list."]
               else []))).
Proof.
  unfold App.get_nse_symbols, offered, catalog_error, bind, emit.
  cbn [fst snd frames out].
  destruct (App.nse_symbols_try w); cbn [ret frames out];
    [reflexivity|by rewrite <- app_assoc].
Qed.

(** Up to the call of [fetch_stock_data]. *)
Lemma run_until_fetch (w : world) :
  date_geb (start_input w) (end_input w) = false ->
  App.run w
  = bind (App.fetch_stock_data w (offered w !! picked w)
            (start_input w) (end_input w))
      (fun data_df =>
         match data_df with
         | Some l =>
             bind (read_frame l) (fun df =>
               if negb (df_empty df) then App.analyse l (offered w !! picked w)
               else emit (StError App.no_data_message))
         | None => emit (StError App.no_data_message)
         end)
      (State ∅ (preamble (offered w) (catalog_error w)
                ++ [StSpinner "Fetching data..."])).
Proof.
  intros Hlt. unfold App.run, App.main.
  unfold bind at 1. cbn [emit frames out app].
  unfold bind at 1. cbn [emit frames out app].
  unfold bind at 1. rewrite get_nse_symbols_offered.
  unfold bind at 1. cbn [emit frames out].
  unfold bind at 1. cbn [emit frames out].
  unfold bind at 1. cbn [emit frames out].
  rewrite Hlt.
  unfold bind at 1. cbn [emit frames out].
  f_equal. f_equal. unfold preamble. cbn [app].
  rewrite <- !app_assoc. reflexivity.
Qed.

Lemma date_lt_geb (a b : date) : date_lt a b -> date_geb a b = false.
Proof. intros H. apply date_ltb_lt in H. unfold date_geb. by rewrite H. Qed.

(** The provider fails: the run ends normally after two error messages,
    the first naming the symbol, the second saying that there is no
    data; nothing is analysed and no frame exists. *)
Theorem run_fetch_failure (w : world) :
  date_lt (start_input w) (end_input w) ->
  history w (offered w !! picked w) (start_input w) (end_input w) = Failed ->
  App.run w
  = (Ok tt,
     State ∅
       (preamble (offered w) (catalog_error w)
        ++ [StSpinner "Fetching data...";
            TickerHistory (offered w !! picked w) (start_input w) (end_input w);
            StError ("Failed to fetch data for "
                     ++ App.show_symbol (offered w !! picked w)
                     ++ ". Please try again.");
            StError App.no_data_message])).
Proof.
  intros Hlt Hfail. rewrite run_until_fetch by (by apply date_lt_geb).
  erewrite bind_ok;
    [|apply (proj2 (fetch_stock_data_steps w _ _ _ _)); exact Hfail].
  unfold emit. cbn [frames out]. by rewrite <- !app_assoc.
Qed.

Lemma run_fetch_failure_witness :
  App.run (World Failed (fun _ _ _ => Failed) 2
             (Date 2014 6 20) (Date 2024 6 21))
  = (Ok tt,
     State ∅
       (preamble App.default_symbols true
        ++ [StSpinner "Fetching data...";
            TickerHistory (Some "TCS.NS") (Date 2014 6 20) (Date 2024 6 21);
            StError "Failed to fetch data for TCS.NS. Please try again.";
            StError App.no_data_message])).
Proof.
  apply (run_fetch_failure
           (World Failed (fun _ _ _ => Failed) 2
              (Date 2014 6 20) (Date 2024 6 21))).
  - apply date_ltb_lt. reflexivity.
  - reflexivity.
Defined.

Lemma df_empty_false (df : DataFrame) (close : list num) :
  price_frame df close -> df_empty df = false.
Proof.
  intros (Hidx & Hc & _). unfold df_empty. apply orb_false_iff. split.
  - destruct (index df); [done|reflexivity].
  - apply bool_decide_eq_false. intros E. rewrite E in Hc.
    by rewrite lookup_empty in Hc.
Qed.

(** The provider answers with an empty frame (no bar, or no column): the
    run ends normally on the message that there is no data; there is no
    fetch error, nothing is analysed, and the frame is stored as it was
    returned. *)
Theorem run_empty_result (w : world) (df : DataFrame) :
  date_lt (start_input w) (end_input w) ->
  history w (offered w !! picked w) (start_input w) (end_input w)
  = Returned df ->
  df_empty df = true ->
  exists l,
    App.run w
    = (Ok tt,
       State {[ l := df ]}
         (preamble (offered w) (catalog_error w)
          ++ [StSpinner "Fetching data...";
              TickerHistory (offered w !! picked w)
                (start_input w) (end_input w);
              StError App.no_data_message])).
Proof.
  intros Hlt Hdf Hempty. rewrite run_until_fetch by (by apply date_lt_geb).
  match goal with
  | |- context [bind (App.fetch_stock_data _ ?s ?a ?b) _ ?st] =>
      destruct (proj1 (fetch_stock_data_steps w s a b st) df Hdf)
        as (l & _ & Hfetch)
  end.
  exists l. erewrite bind_ok; [|exact Hfetch].
  unfold bind, read_frame. cbn [frames out].
  rewrite lookup_insert_eq, Hempty. cbn [negb]. unfold emit.
  cbn [frames out]. rewrite insert_empty, <- !app_assoc. reflexivity.
Qed.

Lemma run_empty_result_witness :
  exists l,
    App.run (World Failed (fun _ _ _ => Returned (Frame [] ∅)) 2
               (Date 2014 6 20) (Date 2024 6 21))
    = (Ok tt,
       State {[ l := Frame [] ∅ ]}
         (preamble App.default_symbols true
          ++ [StSpinner "Fetching data...";
              TickerHistory (Some "TCS.NS") (Date 2014 6 20) (Date 2024 6 21);
              StError App.no_data_message])).
Proof.
  apply (run_empty_result
           (World Failed (fun _ _ _ => Returned (Frame [] ∅)) 2
              (Date 2014 6 20) (Date 2024 6 21))).
  - apply date_ltb_lt. reflexivity.
  - reflexivity.
  - reflexivity.
Defined.

(** The provider answers with a frame that has at least one bar and the
    five price columns, for the symbol that was picked: the run ends
    normally, the fetched frame has gained the four indicator columns,
    and after the spinner and the call of the provider the run shows the
    prices, the charts, the summary table and, last, the recommendation
    computed from the latest close, SMA20, SMA50 and RSI. *)
Theorem run_success (w : world) (df : DataFrame) (close : list num)
    (name : string) :
  date_lt (start_input w) (end_input w) ->
  offered w !! picked w = Some name ->
  history w (Some name) (start_input w) (end_input w) = Returned df ->
  price_frame df close ->
  exists l latest rsi sma20 sma50 sma100,
    last close = Some latest
    /\ last (App.rsi_series close) = Some rsi
    /\ last (Series.rolling_mean 20 close) = Some sma20
    /\ last (Series.rolling_mean 50 close) = Some sma50
    /\ last (Series.rolling_mean 100 close) = Some sma100
    /\ App.run w
       = (Ok tt,
          State {[ l := with_indicators close df ]}
            (preamble (offered w) (catalog_error w)
             ++ [StSpinner "Fetching data...";
                 TickerHistory (Some name) (start_input w) (end_input w)]
             ++ shown name close latest rsi sma20 sma50 sma100)).
Proof.
  intros Hlt Hname Hdf Hframe.
  pose proof (df_empty_false df close Hframe) as Hne.
  destruct Hframe as (Hidx & Hc & Hclose & HO & HH & HL & HV).
  destruct (last close) as [latest|] eqn:Hlast;
    [|by apply last_None in Hlast].
  rewrite run_until_fetch by (by apply date_lt_geb). rewrite Hname.
  match goal with
  | |- context [bind (App.fetch_stock_data _ ?s ?a ?b) _ ?st] =>
      destruct (proj1 (fetch_stock_data_steps w s a b st) df Hdf)
        as (l & _ & Hfetch)
  end.
  cbn [frames out] in Hfetch.
  match type of Hfetch with
  | _ = (_, ?st1) =>
      destruct (analyse_steps l st1 df close latest name)
        as (rsi & sma20 & sma50 & sma100 & Hrsi & H20 & H50 & H100 & Hrun);
        try assumption; [apply lookup_insert_eq|]
  end.
  exists l, latest, rsi, sma20, sma50, sma100. do 5 (split; [done|]).
  erewrite bind_ok; [|exact Hfetch].
  unfold bind at 1, read_frame. cbn [frames out].
  rewrite lookup_insert_eq, Hne. cbn [negb].
  rewrite Hrun. cbn [frames out].
  rewrite insert_insert_eq, insert_empty, <- !app_assoc. reflexivity.
Qed.

Lemma run_success_witness :
  exists l latest rsi sma20 sma50 sma100,
    App.run Samples.short_world
    = (Ok tt,
       State {[ l := with_indicators (Fin <$> Samples.closes_of [11; 12]%Z)
                       Samples.short_frame ]}
         (preamble App.default_symbols true
          ++ [StSpinner "Fetching data...";
              TickerHistory (Some "HDFCBANK.NS")
                (Date 2014 6 20) (Date 2024 6 21)]
          ++ shown "HDFCBANK.NS" (Fin <$> Samples.closes_of [11; 12]%Z)
               latest rsi sma20 sma50 sma100)).
Proof.
  destruct (run_success Samples.short_world Samples.short_frame
              (Fin <$> Samples.closes_of [11; 12]%Z) "HDFCBANK.NS")
    as (l & latest & rsi & sma20 & sma50 & sma100 & _ & _ & _ & _ & _ & Hrun).
  - apply date_ltb_lt. reflexivity.
  - reflexivity.
  - reflexivity.
  - repeat split; try done; by eexists.
  - exists l, latest, rsi, sma20, sma50, sma100. exact Hrun.
Defined.

End WholeRuns.

(** ** The frame stays rectangular *)

Section Rectangular.

Import Analysis.

(** When every column of the fetched frame has one value per bar, so
    does every column of the frame after the indicator columns have been
    assigned: each of the four new columns is as long as [Close]. *)
Theorem indicators_keep_columns_aligned (df : DataFrame) (close : list num) :
  columns df !! "Close" = Some close ->
  (forall name col, columns df !! name = Some col ->
                    length col = length (index df)) ->
  forall name col,
    columns (with_indicators close df) !! name = Some col ->
    length col = length (index (with_indicators close df)).
Proof.
  intros Hc Hall name col. unfold with_indicators, df_setitem.
  cbn [columns index]. pose proof (Hall _ _ Hc) as Hlen.
  rewrite !lookup_insert. repeat case_decide; intros Hcol;
    first [ injection Hcol as <-;
            by rewrite ?rsi_series_length_any, ?rolling_mean_length
          | by eapply Hall ].
Qed.

Lemma indicators_keep_columns_aligned_witness :
  length ([NaN; NaN] : list num)
  = length (index (with_indicators (Fin <$> Samples.closes_of [11; 12]%Z)
                     Samples.short_frame)).
Proof.
  apply (indicators_keep_columns_aligned Samples.short_frame
           (Fin <$> Samples.closes_of [11; 12]%Z)) with (name := "RSI").
  - reflexivity.
  - assert (H : map_Forall (fun (_ : string) (col : list num) =>
                              length col = 2%nat)
                  (columns Samples.short_frame)).
    { apply (bool_decide_unpack _). vm_compute. exact I. }
    intros name col Hcol. exact (H name col Hcol).
  - vm_compute. reflexivity.
Defined.

End Rectangular.
